(** * Wcdctool/modules/ArgumentParser.py: the option-driven argument parser

    A shallow embedding of the module [ArgumentParser] (a table-driven
    wrapper around Python's [argparse]) together with the properties its
    specification states about construction, help rendering and error
    handling.

    Python objects are modelled as follows.
    - Descriptor fields hold [None], booleans, integers or strings
      ([pyval]); strings are ASCII text.
    - A descriptor is a dictionary [gmap string pyval]; dictionaries are
      mutable objects that live in a heap and are referred to by location,
      so that two references to one dictionary see each other's updates.
    - Code that can raise returns an [outcome]; code that mutates objects
      threads a [state] (the parser object [self] and the heap). *)

From Stdlib Require Import ZArith String Ascii List Decimal DecimalString DecimalFacts DecimalNat Lia.
From stdpp Require Import base option numbers gmap strings list.

Local Open Scope Z_scope.

(** ** Python values *)

Inductive pyval : Type :=
  | VNone
  | VBool (b : bool)
  | VInt (z : Z)
  | VStr (s : string).

#[global] Instance pyval_eq_dec : EqDecision pyval.
Proof. solve_decision. Defined.

(** Exceptions the modelled code can raise.  [BareException] is the
    [raise Exception] of the constructor; [EngineError] is whatever the
    underlying engine raises when it refuses a registration;
    [Unmodelled] marks a [%] conversion outside the fragment of string
    formatting that is modelled ([%s] with an optional [-] flag and
    width, and [%%]). *)
Inductive exn : Type :=
  | KeyError (key : string)
  | TypeError
  | ValueError
  | AttributeError
  | BareException
  | EngineError (code : nat)
  | Unmodelled.

Inductive outcome (A : Type) : Type :=
  | Done (a : A)
  | Raised (e : exn).
Arguments Done {A} a.
Arguments Raised {A} e.

Definition outcome_map {A B} (f : A -> B) (o : outcome A) : outcome B :=
  match o with
  | Done a => Done (f a)
  | Raised e => Raised e
  end.

(** [bool] is a subclass of [int] in Python: [True == 1], [False == 0]. *)
Definition py_int_value (v : pyval) : option Z :=
  match v with
  | VBool b => Some (if b then 1 else 0)
  | VInt z => Some z
  | _ => None
  end.

(** [isinstance(v, int)] *)
Definition isinstance_int (v : pyval) : bool :=
  match v with
  | VBool _ | VInt _ => true
  | _ => false
  end.

(** [a == b] *)
Definition py_eq (a b : pyval) : bool :=
  match a, b with
  | VNone, VNone => true
  | VStr s, VStr t => bool_decide (s = t)
  | _, _ =>
      match py_int_value a, py_int_value b with
      | Some x, Some y => bool_decide (x = y)
      | _, _ => false
      end
  end.

(** ** Strings *)

(** [str(z)] for an integer. *)
Definition str_int (z : Z) : string :=
  match z with
  | Zneg p => String "-" (NilZero.string_of_uint (Nat.to_uint (Pos.to_nat p)))
  | _ => NilZero.string_of_uint (Nat.to_uint (Z.to_nat z))
  end.

(** [str(v)], the text [%s] inserts. *)
Definition py_str (v : pyval) : string :=
  match v with
  | VNone => "None"
  | VBool true => "True"
  | VBool false => "False"
  | VInt z => str_int z
  | VStr s => s
  end.

(** [len(s)] *)
Definition len (s : string) : Z := Z.of_nat (String.length s).

Definition upper_char (c : ascii) : ascii :=
  let n := nat_of_ascii c in
  if (Nat.leb 97 n && Nat.leb n 122)%bool then ascii_of_nat (n - 32) else c.

(** [s.upper()] on ASCII text. *)
Fixpoint upper (s : string) : string :=
  match s with
  | EmptyString => EmptyString
  | String c s' => String (upper_char c) (upper s')
  end.

Fixpoint spaces (n : nat) : string :=
  match n with
  | O => EmptyString
  | S n' => String " " (spaces n')
  end.

(** Padding of a converted value to a minimum field width: [%-Ns] pads on
    the right, [%Ns] on the left; a longer value is never cut. *)
Definition pad (ljust : bool) (w : nat) (s : string) : string :=
  let fill := spaces (w - String.length s) in
  if ljust then s +:+ fill else fill +:+ s.

(** [os.path.basename] for POSIX paths: what follows the last slash. *)
Fixpoint basename_go (s : string) (acc : string) : string :=
  match s with
  | EmptyString => acc
  | String c s' =>
      if Ascii.eqb c "/" then basename_go s' EmptyString
      else basename_go s' (acc +:+ String c EmptyString)
  end.

Definition basename (s : string) : string := basename_go s EmptyString.

(** ** The [%] string-formatting operator *)

Definition digit_of (c : ascii) : option nat :=
  let n := nat_of_ascii c in
  if (Nat.leb 48 n && Nat.leb n 57)%bool then Some (n - 48)%nat else None.

(** Characters that Python accepts inside a conversion specifier but that
    lie outside the modelled fragment. *)
Definition python_spec_chars : list ascii :=
  [ "d"; "i"; "o"; "u"; "x"; "X"; "e"; "E"; "f"; "F"; "g"; "G"; "c"; "r";
    "a"; "#"; "0"; " "; "+"; "."; "*"; "h"; "l"; "L"; "("; "%"; "-";
    "1"; "2"; "3"; "4"; "5"; "6"; "7"; "8"; "9" ]%char.

(** Where the scanner stands inside a template: in plain text, just after
    a [%], among the flags, or inside the width digits. *)
Inductive fmt_state : Type :=
  | FText
  | FPct
  | FFlags (ljust : bool)
  | FWidth (ljust : bool) (w : nat).

(** The conversion character [c] closes a specifier with flag [ljust] and
    width [w]; [k] formats the rest of the template. *)
Definition convert (ljust : bool) (w : nat) (c : ascii) (args : list pyval)
    (k : list pyval -> outcome string) : outcome string :=
  if Ascii.eqb c "s" then
    match args with
    | [] => Raised TypeError
    | a :: args' => outcome_map (String.append (pad ljust w (py_str a))) (k args')
    end
  else if bool_decide (c ∈ python_spec_chars) then Raised Unmodelled
  else Raised ValueError.

Fixpoint format_go (st : fmt_state) (t : string) (args : list pyval) : outcome string :=
  match t with
  | EmptyString =>
      match st with
      | FText =>
          match args with
          | [] => Done EmptyString
          | _ :: _ => Raised TypeError
          end
      | _ => Raised ValueError
      end
  | String c t' =>
      match st with
      | FText =>
          if Ascii.eqb c "%" then format_go FPct t' args
          else outcome_map (String c) (format_go FText t' args)
      | FPct =>
          if Ascii.eqb c "%" then outcome_map (String "%"%char) (format_go FText t' args)
          else if Ascii.eqb c "-" then format_go (FFlags true) t' args
          else
            match digit_of c with
            | Some (S d) => format_go (FWidth false (S d)) t' args
            | _ => convert false 0 c args (format_go FText t')
            end
      | FFlags ljust =>
          if Ascii.eqb c "-" then format_go (FFlags true) t' args
          else
            match digit_of c with
            | Some (S d) => format_go (FWidth ljust (S d)) t' args
            | _ => convert ljust 0 c args (format_go FText t')
            end
      | FWidth ljust w =>
          match digit_of c with
          | Some d => format_go (FWidth ljust (10 * w + d)%nat) t' args
          | None => convert ljust w c args (format_go FText t')
          end
      end
  end.

(** [template % args]: [args] are the elements of the right-hand tuple,
    or the single right-hand value when it is not a tuple. *)
Definition format (template : string) (args : list pyval) : outcome string :=
  format_go FText template args.

(** ** Objects: dictionaries in a heap *)

Definition loc : Type := positive.

Abbreviation pydict := (gmap string pyval).
Abbreviation heap := (gmap loc pydict).

(** The dictionary a reference denotes.  References never dangle in
    Python; a location the heap does not mention reads as the empty
    dictionary. *)
Definition deref (h : heap) (l : loc) : pydict := default ∅ (h !! l).

(** [d[k]] *)
Definition getitem (d : pydict) (k : string) : outcome pyval :=
  match d !! k with
  | Some v => Done v
  | None => Raised (KeyError k)
  end.

(** ** Module globals *)

Definition nl : string := String (ascii_of_nat 10) EmptyString.

Definition MSG_SYNTAX_ERROR : string :=
  "Invalid command line. Use --help to display available options.".

Definition MSG_USAGE_HELP : string :=
  "Usage: %s [OPTION]... %s" +:+ nl +:+ nl +:+ "Options:".

(** The module-level dictionary [OPT_DEFAULT_HELP] is one object, created
    when the module is loaded: a fixed location and its initial fields. *)
Definition OPT_DEFAULT_HELP : loc := 1%positive.

Definition OPT_DEFAULT_HELP_fields : pydict :=
  <["type" := VStr "help"]> (<["name" := VStr "help"]> (<["short" := VStr "-h"]>
  (<["long" := VStr "--help"]> (<["help" := VStr "Display this message"]> ∅)))).

Definition EXITCODE_ERROR : Z := 2.
Definition EXITCODE_USAGE : Z := 0.

(** The heap right after the module is loaded. *)
Definition module_heap : heap := {[ OPT_DEFAULT_HELP := OPT_DEFAULT_HELP_fields ]}.

(** ** The underlying engine: registrations *)

Inductive action_kind : Type :=
  | ActStore
  | ActStoreTrue
  | ActHelp.

(** One call of the engine's [add_argument]: the positional arguments
    (a name, or the flag spellings) and the keywords [action], [nargs],
    [dest] and [default]; a keyword that the call does not pass is
    [None]. *)
Record registration : Type := Registration {
  reg_flags : list pyval;
  reg_action : action_kind;
  reg_nargs : option pyval;
  reg_dest : option pyval;
  reg_default : option pyval
}.

#[global] Instance action_kind_eq_dec : EqDecision action_kind.
Proof. solve_decision. Defined.
#[global] Instance registration_eq_dec : EqDecision registration.
Proof. solve_decision. Defined.

(** ** The parser object and the state monad *)

Record parser : Type := Parser {
  options : list loc;
  msg_error : string;
  exc_error : Z;
  msg_usage : string;
  exc_usage : Z;
  opt_help : option loc;
  actions : list registration
}.

Record state : Type := State {
  self : parser;
  heap_of : heap
}.

(** Stateful code that may raise; when it raises, the state is the one
    reached at that point (in-place mutations are not rolled back). *)
Definition M (A : Type) : Type := state -> outcome A * state.

#[global] Instance outcome_ret : MRet outcome := fun A a => Done a.
#[global] Instance outcome_bind : MBind outcome := fun A B k o =>
  match o with
  | Done a => k a
  | Raised e => Raised e
  end.

#[global] Instance M_ret : MRet M := fun A a s => (Done a, s).
#[global] Instance M_bind : MBind M := fun A B k m s =>
  match m s with
  | (Done a, s') => k a s'
  | (Raised e, s') => (Raised e, s')
  end.

Definition lift {A} (o : outcome A) : M A := fun s => (o, s).

(** [option[k]] for the dictionary at [l] *)
Definition get_field (l : loc) (k : string) : M pyval :=
  fun s => (getitem (deref (heap_of s) l) k, s).

(** [k in option] *)
Definition has_field (l : loc) (k : string) : M bool :=
  fun s => (Done (bool_decide (is_Some (deref (heap_of s) l !! k))), s).

(** [option[k] = v], in place *)
Definition set_field (l : loc) (k : string) (v : pyval) : M unit :=
  fun s => (Done tt,
            State (self s) (<[l := <[k := v]> (deref (heap_of s) l)]> (heap_of s))).

Definition set_opt_help (o : option loc) : M unit :=
  fun s =>
    let p := self s in
    (Done tt,
     State (Parser (options p) (msg_error p) (exc_error p) (msg_usage p) (exc_usage p)
                   o (actions p)) (heap_of s)).

(** [self.options.append(l)] *)
Definition append_option (l : loc) : M unit :=
  fun s =>
    let p := self s in
    (Done tt,
     State (Parser (options p ++ [l]) (msg_error p) (exc_error p) (msg_usage p)
                   (exc_usage p) (opt_help p) (actions p)) (heap_of s)).

Fixpoint for_each {A} (body : A -> M unit) (xs : list A) : M unit :=
  match xs with
  | [] => mret tt
  | x :: xs' => body x ;; for_each body xs'
  end.

(** ** Construction *)

Section Construction.

(** The engine's own checks at registration time (option strings that do
    not start with a prefix character, conflicting option strings, ...)
    are not part of this module: given the registrations made so far and
    a new one, the engine either accepts it ([None]) or raises. *)
Variable engine_check : list registration -> registration -> option exn.

(** [self.add_argument(...)] *)
Definition add_argument (r : registration) : M unit :=
  fun s =>
    let p := self s in
    match engine_check (actions p) r with
    | Some e => (Raised e, s)
    | None =>
        (Done tt,
         State (Parser (options p) (msg_error p) (exc_error p) (msg_usage p)
                       (exc_usage p) (opt_help p) (actions p ++ [r])) (heap_of s))
    end.

(** First loop of [__init__]: the first descriptor whose type is
    ["help"], if any. *)
Fixpoint find_help (h : heap) (opts : list loc) : outcome (option loc) :=
  match opts with
  | [] => Done None
  | l :: rest =>
      t ← getitem (deref h l) "type";
      if py_eq t (VStr "help") then Done (Some l) else find_help h rest
  end.

(** [not self.opt_help]: true for [None] and for an empty dictionary. *)
Definition not_opt_help (h : heap) (o : option loc) : bool :=
  match o with
  | None => true
  | Some l => bool_decide (deref h l = ∅)
  end.

(** The nargs keyword for a positional: [None] when the descriptor's
    nargs is an [int] equal to 1, the descriptor's nargs otherwise. *)
Definition positional_nargs (n : pyval) : pyval :=
  if (isinstance_int n && py_eq n (VInt 1))%bool then VNone else n.

(** Body of the second loop of [__init__] for the descriptor at [l].  The
    type is read once: nothing changes it between the comparisons. *)
Definition register_option (l : loc) : M unit :=
  t ← get_field l "type";
  if py_eq t (VStr "normal") then
    short ← get_field l "short";
    long ← get_field l "long";
    arg ← get_field l "arg";
    syntax ← lift (format "%s, %s=%s" [short; long; arg]);
    set_field l "syntax" (VStr syntax);;
    short ← get_field l "short";
    long ← get_field l "long";
    name ← get_field l "name";
    has_default ← has_field l "default";
    dflt ← (if has_default : bool then get_field l "default" else mret VNone);
    add_argument (Registration [short; long] ActStore (Some (VStr "?")) (Some name) (Some dflt))
  else if py_eq t (VStr "switch") then
    short ← get_field l "short";
    long ← get_field l "long";
    syntax ← lift (format "%s, %s" [short; long]);
    set_field l "syntax" (VStr syntax);;
    short ← get_field l "short";
    long ← get_field l "long";
    name ← get_field l "name";
    add_argument (Registration [short; long] ActStoreTrue None (Some name) (Some (VBool false)))
  else if py_eq t (VStr "positional") then
    name ← get_field l "name";
    syntax ← lift (format "%s" [name]);
    set_field l "syntax" (VStr syntax);;
    name ← get_field l "name";
    nargs ← get_field l "nargs";
    add_argument (Registration [name] ActStore (Some (positional_nargs nargs)) None None)
  else if py_eq t (VStr "help") then
    short ← get_field l "short";
    long ← get_field l "long";
    syntax ← lift (format "%s, %s" [short; long]);
    set_field l "syntax" (VStr syntax);;
    short ← get_field l "short";
    long ← get_field l "long";
    add_argument (Registration [short; long] ActHelp None None None)
  else
    lift (Raised BareException).

(** The object [self] right after the parent constructor and the five
    attribute assignments. *)
Definition new_parser (opts : list loc) (msg_error0 : string) (exc_error0 : Z)
    (msg_usage0 : string) (exc_usage0 : Z) : parser :=
  Parser opts msg_error0 exc_error0 msg_usage0 exc_usage0 None [].

Definition init_body : M unit :=
  set_opt_help None;;
  found ← (fun s => (find_help (heap_of s) (options (self s)), s));
  set_opt_help found;;
  missing ← (fun s => (Done (not_opt_help (heap_of s) (opt_help (self s))), s));
  (if missing : bool then
     set_opt_help (Some OPT_DEFAULT_HELP);;
     append_option OPT_DEFAULT_HELP
   else mret tt);;
  opts ← (fun s => (Done (options (self s)), s));
  for_each register_option opts.

(** [ArgumentParser(options, msg_error, exc_error, msg_usage, exc_usage)]
    run on heap [h]: the outcome and the state reached (the object
    [self], with the caller's list as [options], and the heap). *)
Definition init (opts : list loc) (msg_error0 : string) (exc_error0 : Z)
    (msg_usage0 : string) (exc_usage0 : Z) (h : heap) : outcome unit * state :=
  init_body (State (new_parser opts msg_error0 exc_error0 msg_usage0 exc_usage0) h).

End Construction.

(** ** A sample engine policy and the example of the module *)

Definition is_flag (v : pyval) : bool :=
  match v with
  | VStr (String c _) => Ascii.eqb c "-"
  | _ => false
  end.

Definition registered_flags (rs : list registration) : list pyval :=
  flat_map (fun r => if forallb is_flag (reg_flags r) then reg_flags r else []) rs.

(** A policy in the manner of argparse, used for the examples: a call
    whose spellings are all strings starting with ["-"] registers an
    option, and none of them may be registered yet; any other call must
    consist of one non-empty name, without dest, and registers a
    positional; a store action refuses [nargs == 0]. *)
Definition strict_check (rs : list registration) (r : registration) : option exn :=
  let zero_nargs :=
    match reg_action r, reg_nargs r with
    | ActStore, Some n => py_eq n (VInt 0)
    | _, _ => false
    end in
  if zero_nargs then Some ValueError
  else if forallb is_flag (reg_flags r) then
    if bool_decide (Exists (fun f => f ∈ registered_flags rs) (reg_flags r))
    then Some (EngineError 0) else None
  else
    match reg_flags r, reg_dest r with
    | [VStr (String _ _)], None => None
    | _, _ => Some ValueError
    end.

Module Example.

Definition pretend : pydict :=
  <["type" := VStr "switch"]> (<["name" := VStr "pretend"]> (<["short" := VStr "-p"]>
  (<["long" := VStr "--pretend"]> (<["help" := VStr "No changes (dry run)"]> ∅)))).

Definition logfile : pydict :=
  <["type" := VStr "normal"]> (<["name" := VStr "logfile"]> (<["short" := VStr "-l"]>
  (<["long" := VStr "--logfile"]> (<["arg" := VStr "file"]>
  (<["help" := VStr "Log file to write to"]> ∅))))).

Definition help : pydict :=
  <["type" := VStr "help"]> (<["name" := VStr "help"]> (<["short" := VStr "-h"]>
  (<["long" := VStr "--help"]> (<["help" := VStr "Display this message"]> ∅)))).

Definition infile : pydict :=
  <["type" := VStr "positional"]> (<["name" := VStr "infile"]>
  (<["nargs" := VStr "+"]> (<["help" := VStr "Input files"]> ∅))).

Definition outfile : pydict :=
  <["type" := VStr "positional"]> (<["name" := VStr "outfile"]>
  (<["nargs" := VInt 1]> (<["help" := VStr "Output file"]> ∅))).

(** The heap when [example()] calls the constructor: the module constant
    and the five dictionaries of [cmdoptions]. *)
Definition heap0 : heap :=
  <[2%positive := pretend]> (<[3%positive := logfile]> (<[4%positive := help]>
  (<[5%positive := infile]> (<[6%positive := outfile]> module_heap)))).

Definition cmdoptions : list loc := [2; 3; 4; 5; 6]%positive.

Definition msg_error : string :=
  "Invalid or insufficient command line. Use %s for detailed usage information.".

Definition msg_usage : string :=
  "Usage: %s [OPTION]... %s" +:+ nl +:+ nl +:+
  "Example for Python module Argument Parser. The options" +:+ nl +:+
  "specified below are for demonstration purposes only." +:+ nl +:+ nl +:+ "Options:".

Definition constructed : outcome unit * state :=
  init strict_check cmdoptions msg_error 2 msg_usage 0 heap0.

End Example.

(** ** Help and error output *)

(** How a call ends the process: [sys.exit(code)], or an exception that
    nothing in the module catches. *)
Inductive termination : Type :=
  | Exits (code : Z)
  | Raises (e : exn).

(** [v.upper()]: only strings have the method. *)
Definition str_upper (v : pyval) : outcome string :=
  match v with
  | VStr s => Done (upper s)
  | _ => Raised AttributeError
  end.

(** [option["display"].upper() if "display" in option else option["name"].upper()] *)
Definition display_name (d : pydict) : outcome string :=
  match d !! "display" with
  | Some v => str_upper v
  | None => v ← getitem d "name"; str_upper v
  end.

(** [range(0, v)]: the number of iterations. *)
Definition py_range (v : pyval) : outcome nat :=
  match py_int_value v with
  | Some z => Done (Z.to_nat z)
  | None => Raised TypeError
  end.

(** The inner loop for an exact count: each round appends the name and a
    space. *)
Fixpoint repeat_name (d : pydict) (n : nat) (positional : string) : outcome string :=
  match n with
  | O => Done positional
  | S n' =>
      name ← display_name d;
      piece ← format "%s " [VStr name];
      repeat_name d n' (positional +:+ piece)
  end.

(** What one descriptor adds to the usage line. *)
Definition render_option (d : pydict) (positional : string) : outcome string :=
  t ← getitem d "type";
  if py_eq t (VStr "positional") then
    nargs ← getitem d "nargs";
    rendered ←
      (if py_eq nargs (VStr "?") then
         name ← display_name d; piece ← format "[%s]" [VStr name];
         Done (positional +:+ piece)
       else if py_eq nargs (VStr "+") then
         name ← display_name d; piece ← format "%s..." [VStr name];
         Done (positional +:+ piece)
       else if py_eq nargs (VStr "*") then
         name ← display_name d; piece ← format "[%s]..." [VStr name];
         Done (positional +:+ piece)
       else
         n ← py_range nargs;
         repeat_name d n positional);
    Done (rendered +:+ " ")
  else Done positional.

(** First loop of [print_help]. *)
Fixpoint render_positional (h : heap) (opts : list loc) (positional : string)
    : outcome string :=
  match opts with
  | [] => Done positional
  | l :: rest =>
      positional' ← render_option (deref h l) positional;
      render_positional h rest positional'
  end.

(** [len(v)]: defined on strings only among the modelled values. *)
Definition py_len (v : pyval) : outcome Z :=
  match v with
  | VStr s => Done (len s)
  | _ => Raised TypeError
  end.

(** Second loop of [print_help]: the widest syntax of the whole list. *)
Fixpoint compute_maxlen (h : heap) (opts : list loc) (maxlen : Z) : outcome Z :=
  match opts with
  | [] => Done maxlen
  | l :: rest =>
      syntax ← getitem (deref h l) "syntax";
      n ← py_len syntax;
      compute_maxlen h rest (if bool_decide (n > maxlen) then n else maxlen)
  end.

(** ["  %-" + str(maxlen+2) + "s%s"] *)
Definition line_template (maxlen : Z) : string :=
  "  %-" +:+ str_int (maxlen + 2) +:+ "s%s".

(** The line printed for one descriptor, if any. *)
Definition option_line (template : string) (d : pydict) : outcome (option string) :=
  t ← getitem d "type";
  if negb (py_eq t (VStr "positional")) then
    syntax ← getitem d "syntax";
    help ← getitem d "help";
    line ← format template [syntax; help];
    Done (Some line)
  else Done None.

(** Third loop of [print_help]: the lines printed, in order, and whether
    the loop ran to its end. *)
Fixpoint print_options (h : heap) (template : string) (opts : list loc)
    : list string * outcome unit :=
  match opts with
  | [] => ([], Done tt)
  | l :: rest =>
      match option_line template (deref h l) with
      | Raised e => ([], Raised e)
      | Done None => print_options h template rest
      | Done (Some line) =>
          let '(lines, r) := print_options h template rest in (line :: lines, r)
      end
  end.

(** [print_help()]: the arguments of the successive [print] calls and how
    the call ends.  [argv0] is [sys.argv[0]]. *)
Definition print_help (argv0 : string) (p : parser) (h : heap)
    : list string * termination :=
  match (positional ← render_positional h (options p) "";
         format (msg_usage p) [VStr (basename argv0); VStr positional]) with
  | Raised e => ([], Raises e)
  | Done usage =>
      match compute_maxlen h (options p) 0 with
      | Raised e => ([usage], Raises e)
      | Done maxlen =>
          let '(lines, r) := print_options h (line_template maxlen) (options p) in
          (usage :: lines,
           match r with
           | Done _ => Exits (exc_usage p)
           | Raised e => Raises e
           end)
      end
  end.

(** [error(message)]: what is written to the error stream and how the
    call ends.  The engine's [exit(status, message)] writes a non-empty
    message and calls [sys.exit(status)]. *)
Definition error (p : parser) (h : heap) (message : string) : string * termination :=
  match (long ← match opt_help p with
                | Some l => getitem (deref h l) "long"
                | None => Raised TypeError
                end;
         text ← format (msg_error p) [long];
         Done (text +:+ nl)) with
  | Raised e => ("", Raises e)
  | Done text => (text, Exits (exc_error p))
  end.

(** ** The engine's parse

    The engine (Python's [argparse]) is a collaborator outside this
    repository.  Its scan of the command line is not modelled: a parse is
    presented as the sequence of matches the engine makes, each naming a
    registration (by its index) and the tokens it consumes; a positional
    is matched in every parse that returns, with no token when its arity
    allows that and the command line has none for it.  What the
    engine then stores follows the specification of the collaborator and
    the note at the head of the module ("if nargs=1 is passed to
    ArgumentParser, the result is a list with one item; to get only the
    item, one must pass nargs=None"). *)

(** Modelled from the spec: the values in the mapping that the engine's
    parse returns (the engine itself is not in the repository): a single
    value or a sequence of tokens. *)
Inductive nsval : Type :=
  | NSValue (v : pyval)
  | NSList (tokens : list string).

Abbreviation namespace := (gmap string nsval).

(** Modelled from the spec: whether the engine takes a registration for
    a positional (the engine, Python's [argparse], is not in the
    repository): a call with a single spelling that does not start with
    ["-"]; every other call registers an option. *)
Definition is_positional_call (r : registration) : bool :=
  match reg_flags r with
  | [] => true
  | [f] => negb (is_flag f)
  | _ => false
  end.

(** Modelled from the spec: a spelling that starts with two dashes. *)
Definition is_long_flag (v : pyval) : bool :=
  match v with
  | VStr (String a (String b _)) => (Ascii.eqb a "-" && Ascii.eqb b "-")%bool
  | _ => false
  end.

(** Modelled from the spec: the spelling without its leading dashes. *)
Fixpoint lstrip_dash (s : string) : string :=
  match s with
  | String c s' => if Ascii.eqb c "-" then lstrip_dash s' else s
  | EmptyString => EmptyString
  end.

(** Modelled from the spec: every dash replaced by an underscore. *)
Fixpoint dash_to_underscore (s : string) : string :=
  match s with
  | String c s' => String (if Ascii.eqb c "-" then "_"%char else c) (dash_to_underscore s')
  | EmptyString => EmptyString
  end.

(** Modelled from the spec: the name the engine derives for an option
    registered without [dest]: its first long spelling, or else its first
    spelling, without the leading dashes and with underscores for the
    other dashes. *)
Definition option_dest (flags : list pyval) : option string :=
  match List.filter is_long_flag flags ++ flags with
  | VStr s :: _ =>
      match lstrip_dash s with
      | EmptyString => None
      | d => Some (dash_to_underscore d)
      end
  | _ => None
  end.

(** Modelled from the spec: the name under which the engine stores the
    value of a registration ("stored under [name]"): the [dest] keyword
    when it is a string, the positional's own name for a positional.  A
    call without [dest] (or with none) whose single spelling starts with
    a dash registers an option in the engine, which then derives the
    name from the spelling; the help flag stores nothing. *)
Definition dest_of (r : registration) : option string :=
  match reg_action r with
  | ActHelp => None
  | _ =>
      match reg_dest r with
      | Some (VStr n) => Some n
      | Some VNone | None =>
          if is_positional_call r then
            match reg_flags r with
            | [VStr n] => Some n
            | _ => None
            end
          else option_dest (reg_flags r)
      | Some _ => None
      end
  end.

(** Modelled from the spec: the default the engine keeps for a
    registration, none when the keyword is not passed. *)
Definition default_of (r : registration) : pyval := default VNone (reg_default r).

(** Modelled from the spec: the token counts the engine lets a
    registration consume: one for no nargs, zero or one for ["?"], any
    for ["*"], one or more for ["+"], exactly [n] for a count; flags
    without value take none. *)
Definition arity_ok (r : registration) (n : nat) : bool :=
  match reg_action r with
  | ActStore =>
      match reg_nargs r with
      | None | Some VNone => Nat.eqb n 1
      | Some (VStr s) =>
          if String.eqb s "?" then Nat.leb n 1
          else if String.eqb s "*" then true
          else if String.eqb s "+" then Nat.leb 1 n
          else false
      | Some v =>
          match py_int_value v with
          | Some k => Z.eqb (Z.of_nat n) k
          | None => false
          end
      end
  | _ => Nat.eqb n 0
  end.

(** Modelled from the spec: the value the engine builds from the tokens
    a store registration consumed: the token itself for no nargs and for ["?"]
    (for ["?"] without a token, none for an option and the default for a
    positional), a sequence in every other case, a count of 1 included. *)
Definition get_values (r : registration) (tokens : list string) : nsval :=
  match reg_nargs r with
  | None | Some VNone =>
      match tokens with
      | [t] => NSValue (VStr t)
      | _ => NSList tokens
      end
  | Some (VStr s) =>
      if String.eqb s "?" then
        match tokens with
        | [t] => NSValue (VStr t)
        | [] => NSValue (if is_positional_call r then default_of r else VNone)
        | _ => NSList tokens
        end
      else NSList tokens
  | Some _ => NSList tokens
  end.

(** Modelled from the spec: the engine's action on a match: the value is
    stored under the destination name; a switch stores true. *)
Definition take_action (r : registration) (tokens : list string) (ns : namespace)
    : namespace :=
  match reg_action r, dest_of r with
  | ActStore, Some n => <[n := get_values r tokens]> ns
  | ActStoreTrue, Some n => <[n := NSValue (VBool true)]> ns
  | _, _ => ns
  end.

(** Modelled from the spec: the engine's initial mapping: before the
    scan, every destination that has no value yet receives the default
    of the first registration that names it. *)
Fixpoint add_defaults (rs : list registration) (ns : namespace) : namespace :=
  match rs with
  | [] => ns
  | r :: rs' =>
      add_defaults rs'
        match dest_of r with
        | Some n =>
            match ns !! n with
            | None => <[n := NSValue (default_of r)]> ns
            | Some _ => ns
            end
        | None => ns
        end
  end.

(** Modelled from the spec: one match of the scan, the index of a
    registration and the tokens it consumes. *)
Definition event : Type := nat * list string.

(** Modelled from the spec: how the scan ends. *)
Inductive scan_result : Type :=
  | Scanned (ns : namespace)
  | HelpRequested
  | Refused.

(** Modelled from the spec: the engine's scan: the matches are carried
    out in order; the help flag ends the scan, a match that names no
    registration or breaks its arity is a failure. *)
Fixpoint run_events (rs : list registration) (evs : list event) (ns : namespace)
    : scan_result :=
  match evs with
  | [] => Scanned ns
  | (i, tokens) :: evs' =>
      match rs !! i with
      | None => Refused
      | Some r =>
          match reg_action r with
          | ActHelp => HelpRequested
          | _ =>
              if arity_ok r (List.length tokens)
              then run_events rs evs' (take_action r tokens ns)
              else Refused
          end
      end
  end.

(** Modelled from the spec: in a parse that returns, the engine has
    matched every positional, with no token where the arity allows
    that. *)
Definition all_positionals_matched (rs : list registration) (evs : list event) : bool :=
  forallb (fun '(i, r) => implb (is_positional_call r) (bool_decide (i ∈ evs.*1)))
          (imap (fun i r => (i, r)) rs).

(** Modelled from the spec: a parse returns the mapping or ends the
    process, with what was printed, what was written to the error stream
    and how it ended. *)
Inductive parse_outcome : Type :=
  | Returns (ns : namespace)
  | Ends (out : list string) (err : string) (t : termination).

(** Modelled from the spec: the engine's parse entry point: a mapping
    from destination names to values, or the end of the process through
    [print_help] (help flag) or [error] (any failure, with the engine's
    own [message]). *)
Definition parse_args (argv0 : string) (p : parser) (h : heap) (evs : list event)
    (message : string) : parse_outcome :=
  match run_events (actions p) evs (add_defaults (actions p) ∅) with
  | Scanned ns =>
      if all_positionals_matched (actions p) evs then Returns ns
      else let '(err, t) := error p h message in Ends [] err t
  | HelpRequested => let '(out, t) := print_help argv0 p h in Ends out "" t
  | Refused => let '(err, t) := error p h message in Ends [] err t
  end.

(** ** Notions used in the statements *)

(** The text contains no [%]. *)
Fixpoint no_percent (s : string) : bool :=
  match s with
  | EmptyString => true
  | String c s' => (negb (Ascii.eqb c "%") && no_percent s')%bool
  end.

(** What the second loop computes for one descriptor, as functions of the
    descriptor's fields: the syntax text it attaches and the registration
    it makes. *)
Definition syntax_of (d : pydict) : outcome string :=
  t ← getitem d "type";
  if py_eq t (VStr "normal") then
    short ← getitem d "short"; long ← getitem d "long"; arg ← getitem d "arg";
    format "%s, %s=%s" [short; long; arg]
  else if py_eq t (VStr "switch") then
    short ← getitem d "short"; long ← getitem d "long";
    format "%s, %s" [short; long]
  else if py_eq t (VStr "positional") then
    name ← getitem d "name";
    format "%s" [name]
  else if py_eq t (VStr "help") then
    short ← getitem d "short"; long ← getitem d "long";
    format "%s, %s" [short; long]
  else Raised BareException.

(** The registration made for a descriptor with fields [d]. *)
Definition registration_of (d : pydict) : outcome registration :=
  t ← getitem d "type";
  if py_eq t (VStr "normal") then
    short ← getitem d "short"; long ← getitem d "long"; name ← getitem d "name";
    Done (Registration [short; long] ActStore (Some (VStr "?")) (Some name)
                       (Some (default VNone (d !! "default"))))
  else if py_eq t (VStr "switch") then
    short ← getitem d "short"; long ← getitem d "long"; name ← getitem d "name";
    Done (Registration [short; long] ActStoreTrue None (Some name) (Some (VBool false)))
  else if py_eq t (VStr "positional") then
    name ← getitem d "name"; nargs ← getitem d "nargs";
    Done (Registration [name] ActStore (Some (positional_nargs nargs)) None None)
  else if py_eq t (VStr "help") then
    short ← getitem d "short"; long ← getitem d "long";
    Done (Registration [short; long] ActHelp None None None)
  else Raised BareException.

(** The descriptor's type is one of the four known ones. *)
Definition recognized (d : pydict) : bool :=
  match d !! "type" with
  | Some t =>
      (py_eq t (VStr "normal") || py_eq t (VStr "switch")
       || py_eq t (VStr "positional") || py_eq t (VStr "help"))%bool
  | None => false
  end.

(** The descriptor's type is ["help"]. *)
Definition is_help (d : pydict) : bool :=
  match d !! "type" with
  | Some t => py_eq t (VStr "help")
  | None => false
  end.

(** The state after [option["syntax"] = syn] on the descriptor at [l]. *)
Definition set_syntax (l : loc) (syn : string) (s : state) : state :=
  State (self s) (<[l := <["syntax" := VStr syn]> (deref (heap_of s) l)]> (heap_of s)).

(** Two dictionaries that differ at most in their syntax entry. *)
Definition same_fields (d d' : pydict) : Prop :=
  forall k : string, k ≠ "syntax" -> d !! k = d' !! k.

(** Two heaps whose dictionaries differ at most in their syntax entries. *)
Definition heap_agree (h h' : heap) : Prop :=
  forall l : loc, same_fields (deref h l) (deref h' l).

(** The attributes of [self] other than the engine's registrations. *)
Definition same_config (p p' : parser) : Prop :=
  options p' = options p /\ msg_error p' = msg_error p /\ exc_error p' = exc_error p /\
  msg_usage p' = msg_usage p /\ exc_usage p' = exc_usage p /\ opt_help p' = opt_help p.

(** In [h'], the descriptor at [l] carries the syntax computed from its
    fields. *)
Definition syntax_attached (h h' : heap) (l : loc) : Prop :=
  exists syn : string,
    syntax_of (deref h l) = Done syn /\ deref h' l !! "syntax" = Some (VStr syn).

(** The syntax entry at [l] is untouched, or it is the computed one. *)
Definition syntax_kept_or_attached (h h' : heap) (l : loc) : Prop :=
  deref h' l !! "syntax" = deref h l !! "syntax" \/ syntax_attached h h' l.

(** What the second loop has done when it stops, normally or not: it has
    registered the descriptors of a prefix of the list, one registration
    each, attached their syntax, and changed nothing else. *)
Definition loop_effect (xs : list loc) (s : state) (o : outcome unit) (s' : state)
    (regs : list registration) : Prop :=
  actions (self s') = actions (self s) ++ regs /\
  same_config (self s) (self s') /\
  heap_agree (heap_of s) (heap_of s') /\
  Forall2 (fun l r => registration_of (deref (heap_of s) l) = Done r)
          (take (length regs) xs) regs /\
  (length regs <= length xs)%nat /\
  (forall l, syntax_kept_or_attached (heap_of s) (heap_of s') l) /\
  (forall l, l ∈ take (length regs) xs -> syntax_attached (heap_of s) (heap_of s') l) /\
  (forall l, l ∉ xs -> deref (heap_of s') l = deref (heap_of s) l) /\
  (o = Done tt -> length regs = length xs).

(** No descriptor of the list has type ["help"] (each has a type). *)
Definition no_help_in (h : heap) (opts : list loc) : Prop :=
  Forall (fun l => exists t, deref h l !! "type" = Some t /\ py_eq t (VStr "help") = false)
         opts.

(** Number of descriptors of type ["help"] in a list. *)
Definition count_help (h : heap) (opts : list loc) : nat :=
  length (List.filter (fun l => is_help (deref h l)) opts).

(** [l] is the help descriptor the constructor settles on for the list
    [opts]: the first descriptor of type ["help"] in the list, or the
    module's default when the list has none. *)
Definition located_help (h : heap) (opts : list loc) (l : loc) : Prop :=
  (exists pre post : list loc,
     opts = pre ++ l :: post /\ no_help_in h pre /\ is_help (deref h l) = true)
  \/ (no_help_in h opts /\ l = OPT_DEFAULT_HELP).

(** The object [self] when the second loop starts. *)
Definition parser_before_loop (opts : list loc) (me : string) (ee : Z) (mu : string)
    (eu : Z) (h : heap) (found : option loc) : parser :=
  if not_opt_help h found
  then Parser (opts ++ [OPT_DEFAULT_HELP]) me ee mu eu (Some OPT_DEFAULT_HELP) []
  else Parser opts me ee mu eu found [].

(** Width of the syntax entry of a descriptor. *)
Definition syntax_width (d : pydict) : nat :=
  match d !! "syntax" with
  | Some (VStr s) => String.length s
  | _ => 0%nat
  end.

(** The descriptor's type is ["positional"]. *)
Definition is_positional (d : pydict) : bool :=
  match d !! "type" with
  | Some t => py_eq t (VStr "positional")
  | None => false
  end.

(** The widest syntax among the descriptors of a list. *)
Definition widest (h : heap) (ls : list loc) : nat :=
  max_list ((fun l => syntax_width (deref h l)) <$> ls).

(** The descriptors that get a line in the options block. *)
Definition listed (h : heap) (ls : list loc) : list loc :=
  List.filter (fun l => negb (is_positional (deref h l))) ls.

(** The offset from the start of [line] at which the help text that ends
    it begins. *)
Definition help_column (line help : string) : nat :=
  (String.length line - String.length help)%nat.

(** ** Further descriptor lists used in the examples *)

Module Cases.

Definition verbose : pydict :=
  <["type" := VStr "switch"]> (<["name" := VStr "verbose"]> (<["short" := VStr "-v"]>
  (<["long" := VStr "--verbose-output"]> (<["help" := VStr "Be talkative"]> ∅)))).

Definition destination : pydict :=
  <["type" := VStr "positional"]> (<["name" := VStr "destination-directory-of-files"]>
  (<["nargs" := VStr "?"]> (<["help" := VStr "Where to"]> ∅))).

Definition usage : pydict :=
  <["type" := VStr "help"]> (<["name" := VStr "usage"]> (<["short" := VStr "-?"]>
  (<["long" := VStr "--usage"]> (<["help" := VStr "Display usage"]> ∅)))).

Definition alpha : pydict :=
  <["type" := VStr "normal"]> (<["name" := VStr "x"]> (<["short" := VStr "-a"]>
  (<["long" := VStr "--alpha"]> (<["arg" := VStr "value"]> (<["default" := VStr "a"]>
  (<["help" := VStr "First spelling"]> ∅)))))).

Definition beta : pydict :=
  <["type" := VStr "normal"]> (<["name" := VStr "x"]> (<["short" := VStr "-b"]>
  (<["long" := VStr "--beta"]> (<["arg" := VStr "value"]> (<["default" := VStr "b"]>
  (<["help" := VStr "Second spelling"]> ∅)))))).

Definition toggle : pydict :=
  <["type" := VStr "toggle"]> (<["name" := VStr "fast"]> (<["short" := VStr "-f"]>
  (<["long" := VStr "--fast"]> (<["help" := VStr "Hurry"]> ∅)))).

(** One switch whose syntax has 20 characters; the default help
    descriptor, whose syntax has 10, is appended by the constructor. *)
Definition columns_heap : heap := <[2%positive := verbose]> module_heap.
Definition columns : outcome unit * state :=
  init strict_check [2%positive] MSG_SYNTAX_ERROR 2 MSG_USAGE_HELP 0 columns_heap.

(** The same with a positional whose name has 30 characters. *)
Definition wide_heap : heap := <[3%positive := destination]> columns_heap.
Definition wide : outcome unit * state :=
  init strict_check [2; 3]%positive MSG_SYNTAX_ERROR 2 MSG_USAGE_HELP 0 wide_heap.

(** Two help descriptors with different spellings. *)
Definition two_helps_heap : heap :=
  <[2%positive := Example.help]> (<[3%positive := usage]> module_heap).
Definition two_helps : outcome unit * state :=
  init strict_check [2; 3]%positive Example.msg_error 2 MSG_USAGE_HELP 0 two_helps_heap.

(** Two valued options that store under the same name. *)
Definition same_dest_heap : heap :=
  <[2%positive := alpha]> (<[3%positive := beta]> module_heap).
Definition same_dest : outcome unit * state :=
  init strict_check [2; 3]%positive Example.msg_error 2 MSG_USAGE_HELP 0 same_dest_heap.

(** A descriptor of unknown type after a good one. *)
Definition unknown_heap : heap :=
  <[2%positive := Example.pretend]> (<[3%positive := toggle]> module_heap).
Definition unknown : outcome unit * state :=
  init strict_check [2; 3]%positive Example.msg_error 2 MSG_USAGE_HELP 0 unknown_heap.

(** Two constructions in a row, each on a list without help entry. *)
Definition first_heap : heap :=
  <[2%positive := Example.pretend]> (<[3%positive := Example.logfile]> module_heap).
Definition first : outcome unit * state :=
  init strict_check [2%positive] Example.msg_error 2 MSG_USAGE_HELP 0 first_heap.
Definition second : outcome unit * state :=
  init strict_check [3%positive] Example.msg_error 2 MSG_USAGE_HELP 0 (heap_of (snd first)).

(** The example of the module with the default error message. *)
Definition plain : outcome unit * state :=
  init strict_check Example.cmdoptions MSG_SYNTAX_ERROR 2 MSG_USAGE_HELP 0 Example.heap0.

End Cases.

(** ** Descriptor lists whose destination names clash *)

Module Clashes.

Definition single : pydict :=
  <["type" := VStr "positional"]> (<["name" := VStr "x"]> (<["nargs" := VInt 1]>
  (<["help" := VStr "One file"]> ∅))).

Definition several : pydict :=
  <["type" := VStr "positional"]> (<["name" := VStr "x"]> (<["nargs" := VStr "+"]>
  (<["help" := VStr "More files"]> ∅))).

Definition dashed : pydict :=
  <["type" := VStr "positional"]> (<["name" := VStr "-o"]> (<["nargs" := VInt 1]>
  (<["help" := VStr "Output file"]> ∅))).

Definition maybe : pydict :=
  <["type" := VStr "positional"]> (<["name" := VStr "x"]> (<["nargs" := VStr "?"]>
  (<["help" := VStr "Perhaps a file"]> ∅))).

(** Two positionals of one name, the first with the count 1. *)
Definition twice_heap : heap :=
  <[2%positive := single]> (<[3%positive := several]> module_heap).
Definition twice : outcome unit * state :=
  init strict_check [2; 3]%positive Example.msg_error 2 MSG_USAGE_HELP 0 twice_heap.

(** A positional with the count 1 whose name starts with a dash. *)
Definition dashed_heap : heap := <[2%positive := dashed]> module_heap.
Definition dashed_only : outcome unit * state :=
  init strict_check [2%positive] Example.msg_error 2 MSG_USAGE_HELP 0 dashed_heap.

(** A valued option with a default, then a positional of the same name. *)
Definition shadowed_heap : heap :=
  <[2%positive := Cases.alpha]> (<[3%positive := maybe]> module_heap).
Definition shadowed : outcome unit * state :=
  init strict_check [2; 3]%positive Example.msg_error 2 MSG_USAGE_HELP 0 shadowed_heap.

(** A valued option with a default, then a positional of another name. *)
Definition defaulted_heap : heap :=
  <[2%positive := Cases.alpha]> (<[3%positive := Example.infile]> module_heap).
Definition defaulted : outcome unit * state :=
  init strict_check [2; 3]%positive Example.msg_error 2 MSG_USAGE_HELP 0 defaulted_heap.

End Clashes.

(** ** Notions used in the further properties *)

(** An engine that accepts every registration. *)
Definition accept_all (rs : list registration) (r : registration) : option exn := None.

(** All the keys [ks] are present in [d]. *)
Definition has_keys (d : pydict) (ks : list string) : bool :=
  forallb (fun k => bool_decide (is_Some (d !! k))) ks.

(** The descriptor has a known type and the fields the constructor reads
    for that type. *)
Definition well_formed (d : pydict) : bool :=
  match d !! "type" with
  | Some t =>
      if py_eq t (VStr "normal") then has_keys d ["short"; "long"; "arg"; "name"]
      else if py_eq t (VStr "switch") then has_keys d ["short"; "long"; "name"]
      else if py_eq t (VStr "positional") then has_keys d ["name"; "nargs"]
      else if py_eq t (VStr "help") then has_keys d ["short"; "long"]
      else false
  | None => false
  end.

(** [n] copies of [s], one after the other. *)
Fixpoint repeat_string (n : nat) (s : string) : string :=
  match n with
  | O => EmptyString
  | S n' => s +:+ repeat_string n' s
  end.

(** The descriptor has what [print_help] reads: a type; for a positional,
    an nargs that is ["?"], ["+"], ["*"] or an integer, and a display
    name or else a name that is a string; for the others, a help entry. *)
Definition help_ready (d : pydict) : bool :=
  match d !! "type" with
  | Some t =>
      if py_eq t (VStr "positional") then
        match d !! "nargs" with
        | Some n =>
            ((py_eq n (VStr "?") || py_eq n (VStr "+") || py_eq n (VStr "*")
              || isinstance_int n)
             && match display_name d with
                | Done _ => true
                | Raised _ => false
                end)%bool
        | None => false
        end
      else bool_decide (is_Some (d !! "help"))
  | None => false
  end.

(** Further descriptor lists for the examples. *)
Module Further.

(** A dictionary without type entry. *)
Definition untyped : pydict :=
  <["name" := VStr "level"]> (<["short" := VStr "-n"]> (<["long" := VStr "--level"]> ∅)).

Definition untyped_heap : heap :=
  <[2%positive := Example.pretend]> (<[3%positive := untyped]> module_heap).

(** A positional whose nargs is not an arity. *)
Definition many : pydict :=
  <["type" := VStr "positional"]> (<["name" := VStr "files"]>
  (<["nargs" := VStr "many"]> ∅)).

(** The example of the module under an engine that accepts everything. *)
Definition accepted : outcome unit * state :=
  init accept_all Example.cmdoptions Example.msg_error 2 Example.msg_usage 0
       Example.heap0.

End Further.

(** * Properties *)

(** ** Evaluation of the formatting operator *)

Example format_syntax :
  format "%s, %s=%s" [VStr "-l"; VStr "--logfile"; VStr "file"] = Done "-l, --logfile=file".
Proof. reflexivity. Qed.

Example format_column :
  format "  %-12sx" [VStr "-h, --help"] = Done "  -h, --help  x".
Proof. reflexivity. Qed.

Example format_no_placeholder :
  format "no placeholder" [VStr "--help"] = Raised TypeError.
Proof. reflexivity. Qed.

Example str_int_22 : str_int 22 = "22" /\ str_int (-7) = "-7" /\ str_int 0 = "0".
Proof. repeat split; reflexivity. Qed.

(** ** String formatting *)

Lemma outcome_map_compose {A B C} (f : B -> C) (g : A -> B) (o : outcome A) :
  outcome_map f (outcome_map g o) = outcome_map (fun a => f (g a)) o.
Proof. destruct o; reflexivity. Qed.

Lemma string_app_nil_l (b : string) : "" +:+ b = b.
Proof. reflexivity. Qed.

Lemma string_app_cons (c : ascii) (a b : string) :
  String c a +:+ b = String c (a +:+ b).
Proof. reflexivity. Qed.

Lemma string_app_assoc (a b c : string) : (a +:+ b) +:+ c = a +:+ (b +:+ c).
Proof.
  induction a as [|x a IH]; [reflexivity|].
  rewrite !string_app_cons, IH. reflexivity.
Qed.

Lemma string_app_nil_r (a : string) : a +:+ "" = a.
Proof.
  induction a as [|x a IH]; [reflexivity|].
  rewrite string_app_cons, IH. reflexivity.
Qed.

Lemma string_length_app (a b : string) :
  String.length (a +:+ b) = (String.length a + String.length b)%nat.
Proof.
  induction a as [|x a IH]; [reflexivity|].
  rewrite string_app_cons. simpl. rewrite IH. reflexivity.
Qed.

Lemma spaces_length (n : nat) : String.length (spaces n) = n.
Proof. induction n as [|n IH]; simpl; [|rewrite IH]; reflexivity. Qed.

(** Plain text is copied. *)
Lemma format_go_text (pre rest : string) (args : list pyval) :
  no_percent pre = true ->
  format_go FText (pre +:+ rest) args
  = outcome_map (String.append pre) (format_go FText rest args).
Proof.
  induction pre as [|c pre IH]; intros Hp.
  - rewrite string_app_nil_l. destruct (format_go FText rest args); reflexivity.
  - cbn [no_percent] in Hp. apply andb_prop in Hp as [Hc Hp].
    apply negb_true_iff in Hc.
    rewrite string_app_cons. cbn [format_go]. rewrite Hc, (IH Hp), outcome_map_compose.
    reflexivity.
Qed.

(** [%s] inserts [str] of the next argument. *)
Lemma format_go_percent_s (rest : string) (a : pyval) (args : list pyval) :
  format_go FText ("%s" +:+ rest) (a :: args)
  = outcome_map (String.append (py_str a)) (format_go FText rest args).
Proof. reflexivity. Qed.

(** A template without any [%] cannot take an argument. *)
Lemma format_no_percent (t : string) (a : pyval) (args : list pyval) :
  no_percent t = true -> format t (a :: args) = Raised TypeError.
Proof.
  intros Hp. unfold format.
  rewrite <- (string_app_nil_r t), (format_go_text t "" (a :: args) Hp).
  reflexivity.
Qed.

(** A template with the single placeholder [%s]. *)
Lemma format_one_placeholder (pre post : string) (a : pyval) :
  no_percent pre = true -> no_percent post = true ->
  format (pre +:+ "%s" +:+ post) [a] = Done (pre +:+ py_str a +:+ post).
Proof.
  intros Hpre Hpost. unfold format.
  rewrite (format_go_text pre _ _ Hpre), format_go_percent_s.
  rewrite <- (string_app_nil_r post) at 1.
  rewrite (format_go_text post "" [] Hpost). simpl.
  rewrite string_app_nil_r. reflexivity.
Qed.

(** *** The width of a specifier, written in decimal *)

Ltac eval_digit :=
  match goal with
  | |- context [digit_of ?c] =>
      let v := eval vm_compute in (digit_of c) in
      change (digit_of c) with v
  end.

(** Scanning the digits of [d] multiplies the width read so far by ten
    for each digit and adds the digit. *)
Lemma format_go_width (d : uint) (ljust : bool) (w : nat) (rest : string)
    (args : list pyval) :
  format_go (FWidth ljust w) (NilEmpty.string_of_uint d +:+ rest) args
  = format_go (FWidth ljust (Nat.of_uint_acc d w)) rest args.
Proof.
  revert w.
  induction d as [|d IH|d IH|d IH|d IH|d IH|d IH|d IH|d IH|d IH|d IH]; intros w;
    [reflexivity| ..];
    cbn [NilEmpty.string_of_uint]; rewrite string_app_cons;
    cbn [format_go Nat.of_uint_acc]; eval_digit; cbv iota;
    rewrite IH, Nat.tail_mul_spec; do 3 f_equal; lia.
Qed.

Lemma nzhead_not_D0 (d d' : uint) : nzhead d <> D0 d'.
Proof.
  induction d; simpl; try discriminate. exact IHd.
Qed.

(** The decimal writing of a positive number starts with a digit other
    than zero. *)
Lemma to_uint_S_head (n : nat) :
  match Nat.to_uint (S n) with
  | Nil | D0 _ => False
  | _ => True
  end.
Proof.
  pose proof (DecimalNat.Unsigned.of_to (S n)) as Hof.
  pose proof (DecimalNat.Unsigned.to_of (Nat.to_uint (S n))) as Hnorm.
  rewrite Hof in Hnorm.
  destruct (Nat.to_uint (S n)) as [|u|u|u|u|u|u|u|u|u|u]; try exact I.
  - discriminate Hof.
  - rewrite unorm_D0 in Hnorm. unfold unorm in Hnorm.
    destruct (nzhead u) eqn:Hz; try discriminate Hnorm.
    + injection Hnorm as ->. discriminate Hof.
    + apply (nzhead_not_D0 u u0). exact Hz.
Qed.

(** After [%-], the decimal writing of a positive width is read back as
    that width. *)
Lemma format_go_flags_width (n : nat) (ljust : bool) (rest : string)
    (args : list pyval) :
  format_go (FFlags ljust) (str_int (Z.of_nat (S n)) +:+ rest) args
  = format_go (FWidth ljust (S n)) rest args.
Proof.
  unfold str_int.
  replace (Z.of_nat (S n)) with (Z.pos (Pos.of_succ_nat n)) by lia.
  replace (Z.to_nat (Z.pos (Pos.of_succ_nat n))) with (S n) by lia.
  pose proof (to_uint_S_head n) as Hhead.
  pose proof (DecimalNat.Unsigned.of_to (S n)) as Hof.
  unfold NilZero.string_of_uint.
  destruct (Nat.to_uint (S n)) as [|u|u|u|u|u|u|u|u|u|u]; try contradiction;
    cbn [NilEmpty.string_of_uint]; rewrite string_app_cons;
    cbn [format_go]; eval_digit;
    match goal with
    | |- context [Ascii.eqb ?c "-"] => change (Ascii.eqb c "-") with false
    end; cbv iota;
    rewrite format_go_width; do 2 f_equal;
    rewrite <- Hof; unfold Nat.of_uint; cbn [Nat.of_uint_acc];
    rewrite Nat.tail_mul_spec; reflexivity.
Qed.

(** The line template, whatever the width: two spaces, the first
    argument left-justified in [maxlen + 2] columns, the second
    argument. *)
Lemma format_line_template (m : nat) (syntax help : pyval) :
  format (line_template (Z.of_nat m)) [syntax; help]
  = Done ("  " +:+ pad true (m + 2) (py_str syntax) +:+ py_str help).
Proof.
  unfold format, line_template.
  replace (Z.of_nat m + 2) with (Z.of_nat (S (S m))) by lia.
  change ("  %-" +:+ str_int (Z.of_nat (S (S m))) +:+ "s%s")
    with ("  " +:+ String "%" (String "-" (str_int (Z.of_nat (S (S m))) +:+ "s%s"))).
  rewrite (format_go_text "  " _ _ eq_refl).
  cbn [format_go]. change (Ascii.eqb "%" "%") with true.
  change (Ascii.eqb "-" "%") with false. change (Ascii.eqb "-" "-") with true.
  cbv iota.
  rewrite format_go_flags_width.
  change (format_go (FWidth true (S (S m))) "s%s" [syntax; help])
    with (Done (pad true (S (S m)) (py_str syntax) +:+ py_str help +:+ "")).
  rewrite string_app_nil_r.
  replace (m + 2)%nat with (S (S m)) by lia.
  reflexivity.
Qed.

(** ** Construction, descriptor by descriptor *)

Lemma deref_insert (h : heap) (l l' : loc) (d : pydict) :
  deref (<[l := d]> h) l' = if decide (l = l') then d else deref h l'.
Proof.
  unfold deref. rewrite lookup_insert. destruct (decide (l = l')); reflexivity.
Qed.

Lemma deref_insert_eq (h : heap) (l : loc) (d : pydict) : deref (<[l := d]> h) l = d.
Proof. rewrite deref_insert. destruct (decide (l = l)); congruence. Qed.

Lemma getitem_insert_ne (d : pydict) (k k' : string) (v : pyval) :
  k ≠ k' -> getitem (<[k := v]> d) k' = getitem d k'.
Proof. intros Hk. unfold getitem. rewrite lookup_insert_ne by exact Hk. reflexivity. Qed.

(** Unfolding of the two monads. *)
Ltac run_monad_goal :=
  unfold mbind, mret, M_bind, M_ret, outcome_bind, outcome_ret;
  cbv beta iota; cbn [heap_of self fst snd].

Ltac run_monad :=
  unfold mbind, mret, M_bind, M_ret, outcome_bind, outcome_ret in *;
  cbv beta iota; cbn [heap_of self fst snd].

Lemma same_fields_refl (d : pydict) : same_fields d d.
Proof. intros k _. reflexivity. Qed.

Lemma heap_agree_refl (h : heap) : heap_agree h h.
Proof. intros l. apply same_fields_refl. Qed.

Lemma heap_agree_trans (h1 h2 h3 : heap) :
  heap_agree h1 h2 -> heap_agree h2 h3 -> heap_agree h1 h3.
Proof. intros H12 H23 l k Hk. rewrite (H12 l k Hk). apply (H23 l k Hk). Qed.

Lemma heap_agree_set_syntax (h : heap) (l : loc) (v : pyval) :
  heap_agree h (<[l := <["syntax" := v]> (deref h l)]> h).
Proof.
  intros l' k Hk. rewrite deref_insert.
  destruct (decide (l = l')) as [->|]; [|reflexivity].
  rewrite lookup_insert_ne by congruence. reflexivity.
Qed.

Ltac same_fields_rewrite H :=
  unfold getitem;
  rewrite ?(H "type") by done; rewrite ?(H "short") by done;
  rewrite ?(H "long") by done; rewrite ?(H "arg") by done;
  rewrite ?(H "name") by done; rewrite ?(H "nargs") by done;
  rewrite ?(H "default") by done.

Lemma syntax_of_same (d d' : pydict) : same_fields d d' -> syntax_of d = syntax_of d'.
Proof. intros H. unfold syntax_of. same_fields_rewrite H. reflexivity. Qed.

Lemma registration_of_same (d d' : pydict) :
  same_fields d d' -> registration_of d = registration_of d'.
Proof. intros H. unfold registration_of. same_fields_rewrite H. reflexivity. Qed.

Lemma recognized_same (d d' : pydict) : same_fields d d' -> recognized d = recognized d'.
Proof. intros H. unfold recognized. rewrite (H "type") by done. reflexivity. Qed.

Lemma is_help_same (d d' : pydict) : same_fields d d' -> is_help d = is_help d'.
Proof. intros H. unfold is_help. rewrite (H "type") by done. reflexivity. Qed.

(** Only a descriptor of a known type is ever registered. *)
Lemma registration_of_recognized (d : pydict) (r : registration) :
  registration_of d = Done r -> recognized d = true.
Proof.
  unfold registration_of, recognized, getitem. run_monad_goal.
  destruct (d !! "type") as [t|]; [|discriminate].
  destruct (py_eq t (VStr "normal")); [reflexivity|].
  destruct (py_eq t (VStr "switch")); [reflexivity|].
  destruct (py_eq t (VStr "positional")); [reflexivity|].
  destruct (py_eq t (VStr "help")); [reflexivity|discriminate].
Qed.

Lemma syntax_of_recognized (d : pydict) (syn : string) :
  syntax_of d = Done syn -> recognized d = true.
Proof.
  unfold syntax_of, recognized, getitem. run_monad_goal.
  destruct (d !! "type") as [t|]; [|discriminate].
  destruct (py_eq t (VStr "normal")); [reflexivity|].
  destruct (py_eq t (VStr "switch")); [reflexivity|].
  destruct (py_eq t (VStr "positional")); [reflexivity|].
  destruct (py_eq t (VStr "help")); [reflexivity|discriminate].
Qed.

Section ConstructionFacts.

Variable engine_check : list registration -> registration -> option exn.

(** One round of the second loop: the syntax is computed and attached,
    then the registration is built and handed to the engine. *)
Lemma register_option_run (l : loc) (s : state) :
  register_option engine_check l s =
  match syntax_of (deref (heap_of s) l) with
  | Raised e => (Raised e, s)
  | Done syn =>
      match registration_of (deref (heap_of s) l) with
      | Raised e => (Raised e, set_syntax l syn s)
      | Done r => add_argument engine_check r (set_syntax l syn s)
      end
  end.
Proof.
  unfold register_option, syntax_of, registration_of, get_field, has_field,
    set_field, set_syntax, lift, getitem.
  run_monad.
  set (d := deref (heap_of s) l).
  destruct (d !! "type") as [t|] eqn:Et; [|reflexivity].
  repeat lazymatch goal with
  | |- context [if py_eq t ?x then _ else _] => destruct (py_eq t x) eqn:?
  end;
  repeat (run_monad; rewrite ?deref_insert_eq; rewrite ?lookup_insert_ne by done;
          fold d;
          repeat match goal with
                 | H : d !! ?k = _ |- context [d !! ?k] => rewrite H
                 end;
          try lazymatch goal with
          | |- context [match d !! ?k with _ => _ end] => destruct (d !! k) eqn:?
          | |- context [match format ?t ?a with _ => _ end] => destruct (format t a) eqn:?
          end);
  try reflexivity.
  destruct (d !! "default") as [v|] eqn:Ed; cbn [bool_decide decide_rel];
    [rewrite bool_decide_eq_true_2 by eauto | rewrite bool_decide_eq_false_2 by (intros [? ?]; discriminate)];
    run_monad; rewrite ?deref_insert_eq; rewrite ?lookup_insert_ne by done;
    fold d; rewrite ?Ed; reflexivity.
Qed.

Lemma same_config_refl (p : parser) : same_config p p.
Proof. repeat split. Qed.

Lemma loop_effect_stop (x : loc) (xs : list loc) (s : state) (e : exn) :
  loop_effect (x :: xs) s (Raised e) s [].
Proof.
  unfold loop_effect. rewrite app_nil_r. cbn [length take].
  refine (conj _ (conj _ (conj _ (conj _ (conj _ (conj _ (conj _ (conj _ _)))))))).
  - reflexivity.
  - apply same_config_refl.
  - apply heap_agree_refl.
  - constructor.
  - lia.
  - intros l. left. reflexivity.
  - intros l Hl. inversion Hl.
  - reflexivity.
  - discriminate.
Qed.

Lemma loop_effect_stop_after_syntax (x : loc) (xs : list loc) (s : state) (e : exn)
    (syn : string) :
  syntax_of (deref (heap_of s) x) = Done syn ->
  loop_effect (x :: xs) s (Raised e) (set_syntax x syn s) [].
Proof.
  intros Hsyn. unfold loop_effect, set_syntax. cbn [self heap_of length take].
  rewrite app_nil_r.
  refine (conj _ (conj _ (conj _ (conj _ (conj _ (conj _ (conj _ (conj _ _)))))))).
  - reflexivity.
  - apply same_config_refl.
  - apply heap_agree_set_syntax.
  - constructor.
  - lia.
  - intros l. unfold syntax_kept_or_attached, syntax_attached.
    rewrite deref_insert. destruct (decide (x = l)) as [<-|].
    + right. exists syn. split; [exact Hsyn|]. apply lookup_insert_eq.
    + left. reflexivity.
  - intros l Hl. inversion Hl.
  - intros l Hl. rewrite deref_insert. destruct (decide (x = l)) as [<-|]; [|reflexivity].
    exfalso. apply Hl. constructor.
  - discriminate.
Qed.

Lemma register_all_run (xs : list loc) :
  forall (s : state) (o : outcome unit) (s' : state),
    for_each (register_option engine_check) xs s = (o, s') ->
    exists regs : list registration, loop_effect xs s o s' regs.
Proof.
  induction xs as [|x xs IH]; intros s o s' Hrun.
  - cbn in Hrun. injection Hrun as <- <-. exists [].
    unfold loop_effect. rewrite app_nil_r. cbn [length take].
    refine (conj _ (conj _ (conj _ (conj _ (conj _ (conj _ (conj _ (conj _ _)))))))).
    + reflexivity.
    + apply same_config_refl.
    + apply heap_agree_refl.
    + constructor.
    + lia.
    + intros l. left. reflexivity.
    + intros l Hl. inversion Hl.
    + reflexivity.
    + reflexivity.
  - cbn [for_each] in Hrun. unfold mbind, M_bind in Hrun.
    rewrite register_option_run in Hrun.
    destruct (syntax_of (deref (heap_of s) x)) as [syn|e] eqn:Hsyn.
    2:{ injection Hrun as <- <-. exists []. apply loop_effect_stop. }
    destruct (registration_of (deref (heap_of s) x)) as [r|e] eqn:Hreg.
    2:{ injection Hrun as <- <-. exists []. apply loop_effect_stop_after_syntax, Hsyn. }
    unfold add_argument in Hrun. cbn [self heap_of set_syntax] in Hrun.
    destruct (engine_check (actions (self s)) r) as [e|] eqn:Hchk.
    { injection Hrun as <- <-. exists []. apply loop_effect_stop_after_syntax, Hsyn. }
    apply IH in Hrun as (regs & Hact & Hcfg & Hagree & Hregs & Hlen & Hkept & Hatt & Hout & Hdone).
    cbn [self heap_of actions options msg_error exc_error msg_usage exc_usage opt_help]
      in Hact, Hcfg, Hagree, Hregs, Hkept, Hatt, Hout.
    set (h1 := <[x := <["syntax" := VStr syn]> (deref (heap_of s) x)]> (heap_of s)) in *.
    assert (Hagree1 : heap_agree (heap_of s) h1) by apply heap_agree_set_syntax.
    exists (r :: regs). unfold loop_effect. cbn [length take].
    split; [rewrite Hact, <- app_assoc; reflexivity|].
    split; [exact Hcfg|].
    split; [eapply heap_agree_trans; eassumption|].
    split.
    { constructor; [exact Hreg|].
      eapply Forall2_impl; [exact Hregs|]. intros l r' Hr'. cbn in Hr'.
      rewrite <- Hr'. apply registration_of_same, Hagree1. }
    split; [lia|].
    assert (Hx : deref h1 x !! "syntax" = Some (VStr syn)).
    { unfold h1. rewrite deref_insert_eq. apply lookup_insert_eq. }
    assert (Hkept' : forall l, syntax_kept_or_attached (heap_of s) (heap_of s') l).
    { intros l. destruct (Hkept l) as [Hk|(syn' & Hs' & Hl')].
      - destruct (decide (x = l)) as [<-|Hne].
        + right. exists syn. split; [exact Hsyn|]. rewrite Hk. exact Hx.
        + left. rewrite Hk. unfold h1. rewrite deref_insert.
          destruct (decide (x = l)); [contradiction|reflexivity].
      - right. exists syn'. split; [|exact Hl'].
        rewrite <- Hs'. apply syntax_of_same, Hagree1. }
    split; [exact Hkept'|].
    split.
    { intros l Hl. apply elem_of_cons in Hl as [->|Hl].
      - destruct (Hkept x) as [Hk|(syn' & Hs' & Hl')].
        + exists syn. split; [exact Hsyn|]. rewrite Hk. exact Hx.
        + exists syn'. split; [|exact Hl'].
          rewrite <- Hs'. apply syntax_of_same, Hagree1.
      - destruct (Hatt l Hl) as (syn' & Hs' & Hl').
        exists syn'. split; [|exact Hl'].
        rewrite <- Hs'. apply syntax_of_same, Hagree1. }
    split.
    { intros l Hl. apply not_elem_of_cons in Hl as [Hne Hl].
      rewrite (Hout l Hl). unfold h1. rewrite deref_insert.
      destruct (decide (x = l)); [congruence|reflexivity]. }
    intros Ho. rewrite (Hdone Ho). reflexivity.
Qed.

(** *** The first loop *)

Lemma find_help_none (h : heap) (opts : list loc) :
  no_help_in h opts -> find_help h opts = Done None.
Proof.
  induction 1 as [|l opts (t & Ht & Hne) _ IH]; [reflexivity|].
  cbn [find_help]. unfold getitem. rewrite Ht. run_monad_goal. rewrite Hne. exact IH.
Qed.

Lemma find_help_none_count (h : heap) (opts : list loc) :
  find_help h opts = Done None -> count_help h opts = 0%nat.
Proof.
  unfold count_help. induction opts as [|l opts IH]; [reflexivity|].
  cbn [find_help List.filter]. unfold getitem, is_help. run_monad_goal.
  destruct (deref h l !! "type") as [t|]; [|discriminate].
  destruct (py_eq t (VStr "help")); [discriminate|]. exact IH.
Qed.

Lemma find_help_some (h : heap) (opts : list loc) (l : loc) :
  find_help h opts = Done (Some l) -> l ∈ opts /\ is_help (deref h l) = true.
Proof.
  induction opts as [|x opts IH]; [discriminate|].
  cbn [find_help]. unfold getitem. run_monad_goal.
  destruct (deref h x !! "type") as [t|] eqn:Ht; [|discriminate].
  destruct (py_eq t (VStr "help")) eqn:Hhelp.
  - intros [= <-]. split; [constructor|]. unfold is_help. rewrite Ht. exact Hhelp.
  - intros Hfind. destruct (IH Hfind) as [Hin Hl]. split; [|exact Hl].
    constructor. exact Hin.
Qed.

(** What the first loop returns: the first help descriptor of the list,
    with no help descriptor before it, or nothing for a list without. *)
Lemma find_help_located (h : heap) (opts : list loc) (found : option loc) :
  find_help h opts = Done found ->
  match found with
  | Some l => exists pre post : list loc,
                opts = pre ++ l :: post /\ no_help_in h pre /\ is_help (deref h l) = true
  | None => no_help_in h opts
  end.
Proof.
  revert found. induction opts as [|x opts IH]; intros found.
  - intros [= <-]. constructor.
  - cbn [find_help]. unfold getitem. run_monad_goal.
    destruct (deref h x !! "type") as [t|] eqn:Ht; [|discriminate].
    destruct (py_eq t (VStr "help")) eqn:Hhelp.
    + intros [= <-]. exists [], opts. split; [reflexivity|]. split; [constructor|].
      unfold is_help. rewrite Ht. exact Hhelp.
    + intros Hfind. specialize (IH found Hfind).
      assert (Hx : exists t, deref h x !! "type" = Some t /\ py_eq t (VStr "help") = false)
        by (exists t; split; assumption).
      destruct found as [l|].
      * destruct IH as (pre & post & -> & Hpre & Hl).
        exists (x :: pre), post. split; [reflexivity|]. split; [|exact Hl].
        constructor; assumption.
      * constructor; assumption.
Qed.

Lemma is_help_not_empty (h : heap) (l : loc) :
  is_help (deref h l) = true -> not_opt_help h (Some l) = false.
Proof.
  unfold is_help, not_opt_help. intros Hl.
  apply bool_decide_eq_false_2. intros Hempty. rewrite Hempty, lookup_empty in Hl.
  discriminate.
Qed.

Lemma count_help_pos (h : heap) (opts : list loc) (l : loc) :
  l ∈ opts -> is_help (deref h l) = true -> (1 <= count_help h opts)%nat.
Proof.
  intros Hin Hl. unfold count_help.
  assert (Hf : In l (List.filter (fun l => is_help (deref h l)) opts)).
  { apply filter_In. split; [apply list_elem_of_In, Hin|exact Hl]. }
  destruct (List.filter _ opts); [destruct Hf|cbn; lia].
Qed.

Lemma count_help_agree (h h' : heap) (opts : list loc) :
  heap_agree h h' -> count_help h' opts = count_help h opts.
Proof.
  intros Hagree. unfold count_help. f_equal. apply filter_ext.
  intros l. symmetry. apply is_help_same, Hagree.
Qed.

Lemma count_help_app (h : heap) (xs ys : list loc) :
  count_help h (xs ++ ys) = (count_help h xs + count_help h ys)%nat.
Proof. unfold count_help. rewrite List.filter_app, length_app. reflexivity. Qed.

(** *** The constructor as a whole *)

Lemma init_run (opts : list loc) (me : string) (ee : Z) (mu : string) (eu : Z)
    (h : heap) :
  init engine_check opts me ee mu eu h =
  match find_help h opts with
  | Raised e => (Raised e, State (new_parser opts me ee mu eu) h)
  | Done found =>
      let p := parser_before_loop opts me ee mu eu h found in
      for_each (register_option engine_check) (options p) (State p h)
  end.
Proof.
  unfold init, init_body, set_opt_help, append_option, new_parser, parser_before_loop.
  run_monad_goal. cbn [options msg_error exc_error msg_usage exc_usage opt_help actions].
  destruct (find_help h opts) as [found|e]; [|reflexivity].
  cbn [options msg_error exc_error msg_usage exc_usage opt_help actions self heap_of].
  destruct (not_opt_help h found); reflexivity.
Qed.

(** A successful construction, summarised: the list is the caller's list,
    followed by the module's default help descriptor when the first loop
    found no help descriptor; every descriptor has been registered and
    carries its syntax; nothing but syntax entries has changed. *)
Lemma init_done (opts : list loc) (me : string) (ee : Z) (mu : string) (eu : Z)
    (h : heap) (s' : state) :
  init engine_check opts me ee mu eu h = (Done tt, s') ->
  exists found : option loc,
    find_help h opts = Done found /\
    same_config (parser_before_loop opts me ee mu eu h found) (self s') /\
    heap_agree h (heap_of s') /\
    Forall2 (fun l r => registration_of (deref h l) = Done r)
            (options (self s')) (actions (self s')) /\
    (forall l, l ∈ options (self s') -> syntax_attached h (heap_of s') l) /\
    (forall l, l ∉ options (self s') -> deref (heap_of s') l = deref h l).
Proof.
  rewrite init_run. destruct (find_help h opts) as [found|e]; [|discriminate].
  cbv zeta. intros Hrun.
  apply register_all_run in Hrun
    as (regs & Hact & Hcfg & Hagree & Hregs & _ & _ & Hatt & Hout & Hdone).
  cbn [self heap_of] in *.
  specialize (Hdone eq_refl).
  pose proof Hcfg as (Hopts & _).
  rewrite Hdone, firstn_all in Hregs, Hatt.
  assert (Hnil : actions (parser_before_loop opts me ee mu eu h found) = []).
  { unfold parser_before_loop. destruct (not_opt_help h found); reflexivity. }
  rewrite Hnil in Hact. cbn [app] in Hact.
  exists found. rewrite Hopts, Hact.
  split; [reflexivity|]. repeat (split; [assumption|]). assumption.
Qed.

(** The constructor, whatever its outcome, once the first loop is over. *)
Lemma init_effect (opts : list loc) (me : string) (ee : Z) (mu : string) (eu : Z)
    (h : heap) (found : option loc) (o : outcome unit) (s' : state) :
  find_help h opts = Done found ->
  init engine_check opts me ee mu eu h = (o, s') ->
  let p := parser_before_loop opts me ee mu eu h found in
  exists regs : list registration, loop_effect (options p) (State p h) o s' regs.
Proof.
  intros Hfind. rewrite init_run, Hfind. cbv zeta. apply register_all_run.
Qed.

Lemma py_eq_str (t : pyval) (x : string) : py_eq t (VStr x) = true -> t = VStr x.
Proof.
  destruct t as [|b|z|s]; cbn; try discriminate.
  intros Hs. apply bool_decide_eq_true_1 in Hs. congruence.
Qed.

(** A registered help descriptor has a long flag. *)
Lemma help_registration_long (d : pydict) (r : registration) :
  is_help d = true -> registration_of d = Done r ->
  exists long : pyval, d !! "long" = Some long.
Proof.
  unfold is_help, registration_of, getitem. run_monad_goal.
  destruct (d !! "type") as [t|]; [|discriminate].
  intros Ht. apply py_eq_str in Ht as ->. cbn.
  destruct (d !! "short"); [|discriminate].
  destruct (d !! "long") as [long|]; [|discriminate].
  intros _. exists long. reflexivity.
Qed.

Lemma Forall2_elem_of_l {A B} (P : A -> B -> Prop) (xs : list A) (ys : list B) (x : A) :
  Forall2 P xs ys -> x ∈ xs -> exists y, y ∈ ys /\ P x y.
Proof.
  induction 1 as [|x' y' xs ys Hxy _ IH]; intros Hin.
  - inversion Hin.
  - apply elem_of_cons in Hin as [->|Hin].
    + exists y'. split; [constructor|exact Hxy].
    + destruct (IH Hin) as (y & Hy & Hp). exists y. split; [constructor; exact Hy|exact Hp].
Qed.

(** After a successful construction [self.opt_help] is a descriptor with
    a long flag. *)
Lemma init_opt_help_long (opts : list loc) (me : string) (ee : Z) (mu : string)
    (eu : Z) (h : heap) (s' : state) :
  is_help (deref h OPT_DEFAULT_HELP) = true ->
  init engine_check opts me ee mu eu h = (Done tt, s') ->
  exists (l : loc) (long : pyval),
    opt_help (self s') = Some l /\ deref (heap_of s') l !! "long" = Some long /\
    msg_error (self s') = me /\ exc_error (self s') = ee.
Proof.
  intros Hdef Hinit.
  apply init_done in Hinit as (found & Hfind & Hcfg & Hagree & Hregs & _ & _).
  destruct Hcfg as (Hopts & Hme & Hee & _ & _ & Hhelp).
  assert (Hl : exists l, opt_help (self s') = Some l /\ l ∈ options (self s')
                         /\ is_help (deref h l) = true).
  { rewrite Hhelp, Hopts. unfold parser_before_loop.
    destruct found as [l|].
    - apply find_help_some in Hfind as [Hin Hl].
      rewrite (is_help_not_empty h l Hl). exists l. cbn. auto.
    - cbn. exists OPT_DEFAULT_HELP. split; [reflexivity|]. split; [|exact Hdef].
      apply elem_of_app. right. constructor. }
  destruct Hl as (l & Hsome & Hin & Hl).
  destruct (Forall2_elem_of_l _ _ _ _ Hregs Hin) as (r & _ & Hr).
  destruct (help_registration_long _ _ Hl Hr) as (long & Hlong).
  exists l, long. split; [exact Hsome|]. split.
  - rewrite <- (Hagree l "long") by done. exact Hlong.
  - rewrite Hme, Hee. unfold parser_before_loop.
    destruct (not_opt_help h found); split; reflexivity.
Qed.

(** *** Claims about construction *)

(** C3 (amended): after a successful construction the descriptor list
    holds at least one descriptor of type ["help"]: exactly one when the
    caller's list held at most one (the module's default is appended when
    it held none), and as many as the caller's list held otherwise. *)
Theorem help_descriptor_count (opts : list loc) (me : string) (ee : Z) (mu : string)
    (eu : Z) (h : heap) (s' : state) :
  is_help (deref h OPT_DEFAULT_HELP) = true ->
  init engine_check opts me ee mu eu h = (Done tt, s') ->
  count_help (heap_of s') (options (self s')) = Nat.max 1 (count_help h opts).
Proof.
  intros Hdef Hinit.
  apply init_done in Hinit as (found & Hfind & Hcfg & Hagree & _).
  destruct Hcfg as (Hopts & _). rewrite Hopts, (count_help_agree _ _ _ Hagree).
  unfold parser_before_loop. destruct found as [l|].
  - apply find_help_some in Hfind as [Hin Hl].
    rewrite (is_help_not_empty h l Hl). cbn [options].
    pose proof (count_help_pos h opts l Hin Hl). lia.
  - cbn [not_opt_help options]. rewrite count_help_app.
    rewrite (find_help_none_count _ _ Hfind).
    unfold count_help at 1. cbn [List.filter]. rewrite Hdef. reflexivity.
Qed.

(** Construction on a list without help descriptor. *)
Lemma init_without_help (opts : list loc) (me : string) (ee : Z) (mu : string)
    (eu : Z) (h : heap) (o : outcome unit) (s' : state) :
  no_help_in h opts ->
  same_fields OPT_DEFAULT_HELP_fields (deref h OPT_DEFAULT_HELP) ->
  init engine_check opts me ee mu eu h = (o, s') ->
  options (self s') = opts ++ [OPT_DEFAULT_HELP] /\
  opt_help (self s') = Some OPT_DEFAULT_HELP /\
  deref (heap_of s') OPT_DEFAULT_HELP !! "type" = Some (VStr "help") /\
  deref (heap_of s') OPT_DEFAULT_HELP !! "short" = Some (VStr "-h") /\
  deref (heap_of s') OPT_DEFAULT_HELP !! "long" = Some (VStr "--help") /\
  deref (heap_of s') OPT_DEFAULT_HELP !! "name" = Some (VStr "help") /\
  deref (heap_of s') OPT_DEFAULT_HELP !! "help" = Some (VStr "Display this message") /\
  (o = Done tt ->
   (forall l, l ∈ opts ++ [OPT_DEFAULT_HELP] -> syntax_attached h (heap_of s') l) /\
   deref (heap_of s') OPT_DEFAULT_HELP !! "syntax" = Some (VStr "-h, --help")).
Proof.
  intros Hno Hdef Hinit.
  pose proof (find_help_none _ _ Hno) as Hfind.
  destruct (init_effect _ _ _ _ _ _ _ _ _ Hfind Hinit)
    as (regs & _ & Hcfg & Hagree & _ & _ & _ & Hatt & _ & Hdone).
  cbn [self heap_of parser_before_loop not_opt_help options opt_help] in *.
  destruct Hcfg as (Hopts & _ & _ & _ & _ & Hhelp).
  cbn [options opt_help] in Hopts, Hhelp.
  assert (Hfield : forall k, k ≠ "syntax" ->
            deref (heap_of s') OPT_DEFAULT_HELP !! k = OPT_DEFAULT_HELP_fields !! k).
  { intros k Hk. rewrite <- (Hagree OPT_DEFAULT_HELP k Hk). symmetry. apply Hdef, Hk. }
  split; [exact Hopts|]. split; [exact Hhelp|].
  do 5 (split; [rewrite Hfield by done; reflexivity|]).
  intros ->. specialize (Hdone eq_refl). rewrite Hdone, firstn_all in Hatt.
  split; [exact Hatt|].
  destruct (Hatt OPT_DEFAULT_HELP) as (syn & Hsyn & Hl).
  { apply elem_of_app. right. constructor. }
  rewrite <- (syntax_of_same _ _ Hdef) in Hsyn.
  vm_compute in Hsyn. injection Hsyn as <-. exact Hl.
Qed.

(** C8: when some descriptor of the list has a type that is none of
    ["normal"], ["switch"], ["positional"], ["help"], the constructor
    raises; the registrations made before that belong, one each, to a
    prefix of the list made of descriptors of known type only, so the
    offending descriptor is never registered. *)
Theorem unrecognized_type_fatal (opts : list loc) (me : string) (ee : Z) (mu : string)
    (eu : Z) (h : heap) :
  (exists l, l ∈ opts /\ recognized (deref h l) = false) ->
  exists (e : exn) (s' : state) (registered : list loc),
    init engine_check opts me ee mu eu h = (Raised e, s') /\
    registered `prefix_of` options (self s') /\
    Forall2 (fun l r => registration_of (deref h l) = Done r)
            registered (actions (self s')) /\
    Forall (fun l => recognized (deref h l) = true) registered.
Proof.
  intros (bad & Hbad & Hunknown).
  destruct (init engine_check opts me ee mu eu h) as [o s'] eqn:Hinit.
  destruct (find_help h opts) as [found|e] eqn:Hfind.
  2:{ rewrite init_run, Hfind in Hinit. injection Hinit as <- <-.
      exists e, (State (new_parser opts me ee mu eu) h), [].
      split; [reflexivity|]. split; [apply prefix_nil|]. split; constructor. }
  destruct (init_effect _ _ _ _ _ _ _ _ _ Hfind Hinit)
    as (regs & Hact & Hcfg & _ & Hregs & _ & _ & _ & _ & Hdone).
  cbn [self heap_of] in *.
  destruct Hcfg as (Hopts & _).
  set (xs := options (parser_before_loop opts me ee mu eu h found)) in *.
  assert (Hnil : actions (parser_before_loop opts me ee mu eu h found) = []).
  { unfold parser_before_loop. destruct (not_opt_help h found); reflexivity. }
  rewrite Hnil in Hact. cbn [app] in Hact.
  assert (Hknown : Forall (fun l => recognized (deref h l) = true) (take (length regs) xs)).
  { eapply Forall2_Forall_l; [exact Hregs|]. apply Forall_forall.
    intros r _ l Hr. eapply registration_of_recognized, Hr. }
  destruct o as [[]|e].
  - exfalso. rewrite (Hdone eq_refl), firstn_all in Hknown.
    assert (Hin : bad ∈ xs).
    { unfold xs, parser_before_loop. destruct (not_opt_help h found); cbn [options];
        [apply elem_of_app; left|]; exact Hbad. }
    rewrite Forall_forall in Hknown. rewrite (Hknown bad Hin) in Hunknown. discriminate.
  - exists e, s', (take (length regs) xs).
    split; [reflexivity|]. rewrite Hopts, Hact.
    split; [apply prefix_take|]. split; assumption.
Qed.

(** C10: when the list has no help entry the constructor appends the
    module-level dictionary [OPT_DEFAULT_HELP] itself (its location, no
    copy) and attaches a syntax entry to it: the first such construction
    changes the shared constant, and a later construction without help
    entry appends the same, already changed object. *)
Theorem default_help_shared (opts1 opts2 : list loc) (me1 me2 : string) (ee1 ee2 : Z)
    (mu1 mu2 : string) (eu1 eu2 : Z) (h0 : heap) (s1 s2 : state) :
  deref h0 OPT_DEFAULT_HELP = OPT_DEFAULT_HELP_fields ->
  no_help_in h0 opts1 ->
  init engine_check opts1 me1 ee1 mu1 eu1 h0 = (Done tt, s1) ->
  no_help_in (heap_of s1) opts2 ->
  init engine_check opts2 me2 ee2 mu2 eu2 (heap_of s1) = (Done tt, s2) ->
  options (self s1) = opts1 ++ [OPT_DEFAULT_HELP] /\
  deref (heap_of s1) OPT_DEFAULT_HELP
    = <["syntax" := VStr "-h, --help"]> OPT_DEFAULT_HELP_fields /\
  deref (heap_of s1) OPT_DEFAULT_HELP ≠ deref h0 OPT_DEFAULT_HELP /\
  options (self s2) = opts2 ++ [OPT_DEFAULT_HELP] /\
  deref (heap_of s2) OPT_DEFAULT_HELP = deref (heap_of s1) OPT_DEFAULT_HELP.
Proof.
  intros Hfresh Hno1 Hinit1 Hno2 Hinit2.
  assert (Hdef0 : same_fields OPT_DEFAULT_HELP_fields (deref h0 OPT_DEFAULT_HELP)).
  { rewrite Hfresh. apply same_fields_refl. }
  destruct (init_without_help _ _ _ _ _ _ _ _ Hno1 Hdef0 Hinit1)
    as (Hopts1 & _ & _ & _ & _ & _ & _ & Hsyn1).
  destruct (Hsyn1 eq_refl) as [_ Hsyn1'].
  pose proof Hinit1 as Hd1. apply init_done in Hd1 as (_ & _ & _ & Hagree1 & _).
  assert (Hone : deref (heap_of s1) OPT_DEFAULT_HELP
                 = <["syntax" := VStr "-h, --help"]> OPT_DEFAULT_HELP_fields).
  { apply map_eq. intros k. destruct (decide (k = "syntax")) as [->|Hk].
    - rewrite Hsyn1', lookup_insert_eq. reflexivity.
    - rewrite lookup_insert_ne by congruence.
      rewrite <- (Hagree1 OPT_DEFAULT_HELP k Hk), Hfresh. reflexivity. }
  assert (Hdef1 : same_fields OPT_DEFAULT_HELP_fields (deref (heap_of s1) OPT_DEFAULT_HELP)).
  { intros k Hk. rewrite Hone, lookup_insert_ne by congruence. reflexivity. }
  destruct (init_without_help _ _ _ _ _ _ _ _ Hno2 Hdef1 Hinit2)
    as (Hopts2 & _ & _ & _ & _ & _ & _ & Hsyn2).
  destruct (Hsyn2 eq_refl) as [_ Hsyn2'].
  pose proof Hinit2 as Hd2. apply init_done in Hd2 as (_ & _ & _ & Hagree2 & _).
  split; [exact Hopts1|]. split; [exact Hone|]. split.
  { rewrite Hone, Hfresh. intros Heq.
    assert (Hk : (<["syntax" := VStr "-h, --help"]> OPT_DEFAULT_HELP_fields) !! "syntax"
                 = OPT_DEFAULT_HELP_fields !! "syntax") by (rewrite Heq; reflexivity).
    rewrite lookup_insert_eq in Hk. vm_compute in Hk. discriminate. }
  split; [exact Hopts2|].
  apply map_eq. intros k. destruct (decide (k = "syntax")) as [->|Hk].
  - rewrite Hsyn2', Hsyn1'. reflexivity.
  - symmetry. apply (Hagree2 OPT_DEFAULT_HELP k Hk).
Qed.

(** C5: [error] ignores the message it is given; with an error template
    that has the single placeholder [%s] it writes the template with the
    long flag of the help descriptor in place of the placeholder (and a
    line end) and exits with the configured error code.  The help
    descriptor is the first descriptor of type ["help"] in the caller's
    list, or the module's default when the list has none; its long flag
    is the one it had before construction. *)
Theorem error_uniform_message (opts : list loc) (pre post : string) (ee : Z)
    (mu : string) (eu : Z) (h : heap) (s' : state) (message : string) :
  is_help (deref h OPT_DEFAULT_HELP) = true ->
  no_percent pre = true -> no_percent post = true ->
  init engine_check opts (pre +:+ "%s" +:+ post) ee mu eu h = (Done tt, s') ->
  exists (l : loc) (long : pyval),
    located_help h opts l /\
    l ∈ options (self s') /\
    opt_help (self s') = Some l /\
    deref h l !! "long" = Some long /\
    deref (heap_of s') l !! "long" = Some long /\
    error (self s') (heap_of s') message
      = ((pre +:+ py_str long +:+ post) +:+ nl, Exits ee).
Proof.
  intros Hdef Hpre Hpost Hinit.
  apply init_done in Hinit as (found & Hfind & Hcfg & Hagree & Hregs & _ & _).
  destruct Hcfg as (Hopts & Hme & Hee & _ & _ & Hhelp).
  pose proof (find_help_located _ _ _ Hfind) as Hloc.
  assert (Hl : exists l, located_help h opts l /\ opt_help (self s') = Some l /\
                         l ∈ options (self s') /\ is_help (deref h l) = true /\
                         msg_error (self s') = pre +:+ "%s" +:+ post /\
                         exc_error (self s') = ee).
  { rewrite Hhelp, Hopts, Hme, Hee. unfold parser_before_loop.
    destruct found as [l|].
    - destruct Hloc as (before & after & -> & Hbefore & Hl).
      rewrite (is_help_not_empty h l Hl). exists l. cbn.
      split; [left; exists before, after; auto|]. split; [reflexivity|].
      split; [|auto]. apply elem_of_app. right. constructor.
    - cbn. exists OPT_DEFAULT_HELP. split; [right; auto|]. split; [reflexivity|].
      split; [|auto]. apply elem_of_app. right. constructor. }
  destruct Hl as (l & Hlocated & Hsome & Hin & Hl & Hmsg & Hexc).
  destruct (Forall2_elem_of_l _ _ _ _ Hregs Hin) as (r & _ & Hr).
  destruct (help_registration_long _ _ Hl Hr) as (long & Hlong).
  assert (Hlong' : deref (heap_of s') l !! "long" = Some long)
    by (rewrite <- (Hagree l "long") by done; exact Hlong).
  exists l, long. do 5 (split; [assumption|]).
  unfold error, getitem. rewrite Hsome, Hlong', Hmsg, Hexc. run_monad_goal.
  rewrite (format_one_placeholder pre post long Hpre Hpost). reflexivity.
Qed.

(** C9: the module's default error message has no placeholder, so in a
    parser constructed with it [error] raises the type error of the [%]
    operator; it writes nothing and does not exit with the error code. *)
Theorem default_error_message_raises (opts : list loc) (ee : Z) (mu : string) (eu : Z)
    (h : heap) (s' : state) (message : string) :
  is_help (deref h OPT_DEFAULT_HELP) = true ->
  init engine_check opts MSG_SYNTAX_ERROR ee mu eu h = (Done tt, s') ->
  no_percent MSG_SYNTAX_ERROR = true /\
  error (self s') (heap_of s') message = ("", Raises TypeError).
Proof.
  intros Hdef Hinit. split; [reflexivity|].
  destruct (init_opt_help_long _ _ _ _ _ _ _ Hdef Hinit) as (l & long & Hl & Hlong & Hme & _).
  unfold error, getitem. rewrite Hl, Hlong, Hme. run_monad_goal.
  rewrite (format_no_percent MSG_SYNTAX_ERROR long [] eq_refl). reflexivity.
Qed.

(** *** Claims that involve the engine's parse *)

Lemma add_defaults_keeps (rs : list registration) (ns : namespace) (n : string)
    (v : nsval) :
  ns !! n = Some v -> add_defaults rs ns !! n = Some v.
Proof.
  revert ns. induction rs as [|r rs IH]; intros ns Hn; [exact Hn|].
  cbn [add_defaults]. apply IH.
  destruct (dest_of r) as [m|]; [|exact Hn].
  destruct (ns !! m) eqn:Hm; [exact Hn|].
  rewrite lookup_insert_ne; [exact Hn|]. intros ->. congruence.
Qed.

(** The default stored under a name is that of the first registration
    with this destination. *)
Lemma add_defaults_first (rs : list registration) :
  forall (ns : namespace) (i : nat) (r : registration) (n : string),
    rs !! i = Some r -> dest_of r = Some n ->
    (forall j r', (j < i)%nat -> rs !! j = Some r' -> dest_of r' ≠ Some n) ->
    ns !! n = None ->
    add_defaults rs ns !! n = Some (NSValue (default_of r)).
Proof.
  induction rs as [|r0 rs IH]; intros ns i r n Hi Hdest Hfirst Hn; [discriminate|].
  cbn [add_defaults]. destruct i as [|i].
  - injection Hi as ->. rewrite Hdest, Hn.
    apply add_defaults_keeps, lookup_insert_eq.
  - apply (IH _ i r n Hi Hdest).
    + intros j r' Hj Hr'. apply (Hfirst (S j) r'); [lia|exact Hr'].
    + assert (H0 : dest_of r0 ≠ Some n) by (apply (Hfirst 0%nat r0); [lia|reflexivity]).
      destruct (dest_of r0) as [m|]; [|exact Hn].
      destruct (ns !! m); [exact Hn|].
      rewrite lookup_insert_ne; [exact Hn|]. congruence.
Qed.

Lemma take_action_other (r : registration) (tokens : list string) (ns : namespace)
    (n : string) :
  dest_of r ≠ Some n -> take_action r tokens ns !! n = ns !! n.
Proof.
  intros Hd. unfold take_action.
  destruct (reg_action r), (dest_of r) as [m|]; try reflexivity;
    rewrite lookup_insert_ne; congruence.
Qed.

(** Matches for other destinations leave the value under [n] alone. *)
Lemma run_events_other (rs : list registration) (evs : list event) (n : string) :
  forall ns ns' : namespace,
    (forall j tokens r, (j, tokens) ∈ evs -> rs !! j = Some r -> dest_of r ≠ Some n) ->
    run_events rs evs ns = Scanned ns' ->
    ns' !! n = ns !! n.
Proof.
  induction evs as [|[j tokens] evs IH]; intros ns ns' Hevs Hrun.
  - injection Hrun as <-. reflexivity.
  - cbn [run_events] in Hrun.
    destruct (rs !! j) as [r|] eqn:Hj; [|discriminate].
    assert (Hd : dest_of r ≠ Some n) by (apply (Hevs j tokens r); [constructor|exact Hj]).
    assert (Hrest : forall j' tokens' r', (j', tokens') ∈ evs -> rs !! j' = Some r' ->
                                          dest_of r' ≠ Some n).
    { intros j' tokens' r' Hin. apply (Hevs j' tokens' r'). constructor. exact Hin. }
    destruct (reg_action r); try discriminate;
      (destruct (arity_ok r (length tokens)); [|discriminate]);
      rewrite (IH _ _ Hrest Hrun); apply take_action_other, Hd.
Qed.

(** The registration made for the descriptor at position [i]. *)
Lemma init_registration (opts : list loc) (me : string) (ee : Z) (mu : string)
    (eu : Z) (h : heap) (s' : state) (i : nat) (l : loc) :
  init engine_check opts me ee mu eu h = (Done tt, s') ->
  options (self s') !! i = Some l ->
  exists r, actions (self s') !! i = Some r /\ registration_of (deref h l) = Done r.
Proof.
  intros Hinit Hi.
  apply init_done in Hinit as (_ & _ & _ & _ & Hregs & _).
  destruct (Forall2_lookup_l _ _ _ _ _ Hregs Hi) as (r & Hr & Hreg).
  exists r. split; assumption.
Qed.

(** Two checks on the destination names of a list of registrations, by
    computation. *)
Lemma dest_unique_check (rs : list registration) (i : nat) (n : string) :
  forallb (fun '(j, r) => (Nat.eqb j i || negb (bool_decide (dest_of r = Some n)))%bool)
          (imap (fun j r => (j, r)) rs) = true ->
  forall j r, j ≠ i -> rs !! j = Some r -> dest_of r ≠ Some n.
Proof.
  intros Hall j r Hne Hj. rewrite forallb_forall in Hall.
  assert (Hin : In (j, r) (imap (fun j r => (j, r)) rs)).
  { apply list_elem_of_In. apply (list_elem_of_lookup_2 _ j).
    rewrite list_lookup_imap, Hj. reflexivity. }
  specialize (Hall (j, r) Hin). cbn beta iota in Hall.
  apply orb_true_iff in Hall as [Heq|Hd].
  - apply Nat.eqb_eq in Heq. contradiction.
  - apply negb_true_iff, bool_decide_eq_false in Hd. exact Hd.
Qed.

Lemma dest_positional_check (rs : list registration) (n : string) :
  forallb (fun r => implb (is_positional_call r) (negb (bool_decide (dest_of r = Some n))))
          rs = true ->
  forall (j : nat) r, rs !! j = Some r -> is_positional_call r = true -> dest_of r ≠ Some n.
Proof.
  intros Hall j r Hj Hcall. rewrite forallb_forall in Hall.
  specialize (Hall r (proj1 (list_elem_of_In _ _) (list_elem_of_lookup_2 _ _ _ Hj))).
  rewrite Hcall in Hall. cbn [implb] in Hall.
  apply negb_true_iff, bool_decide_eq_false in Hall. exact Hall.
Qed.

(** In a parse that returns, the positional at position [i] has been
    matched. *)
Lemma all_positionals_matched_elem (rs : list registration) (evs : list event) (i : nat)
    (r : registration) :
  all_positionals_matched rs evs = true -> rs !! i = Some r ->
  is_positional_call r = true -> i ∈ evs.*1.
Proof.
  intros Hall Hi Hpos. unfold all_positionals_matched in Hall.
  rewrite forallb_forall in Hall.
  assert (Hin : In (i, r) (imap (fun i r => (i, r)) rs)).
  { apply list_elem_of_In. apply (list_elem_of_lookup_2 _ i).
    rewrite list_lookup_imap, Hi. reflexivity. }
  specialize (Hall (i, r) Hin). cbn beta iota in Hall. rewrite Hpos in Hall.
  cbn [implb] in Hall. apply bool_decide_eq_true in Hall. exact Hall.
Qed.

(** When only the store registration at position [i] has the destination
    [n] and it has been matched, the value under [n] is the one built
    from the tokens of one of its matches. *)
Lemma run_events_stored (rs : list registration) (evs : list event) (n : string)
    (i : nat) (r : registration) :
  rs !! i = Some r -> reg_action r = ActStore -> dest_of r = Some n ->
  (forall j r', j ≠ i -> rs !! j = Some r' -> dest_of r' ≠ Some n) ->
  forall ns ns' : namespace,
    i ∈ evs.*1 -> run_events rs evs ns = Scanned ns' ->
    exists tokens : list string,
      (i, tokens) ∈ evs /\ arity_ok r (length tokens) = true /\
      ns' !! n = Some (get_values r tokens).
Proof.
  intros Hi Hact Hdest Huniq.
  induction evs as [|[j tokens] evs IH]; intros ns ns' Hin Hrun.
  - inversion Hin.
  - cbn [run_events] in Hrun.
    destruct (rs !! j) as [rj|] eqn:Hj; [|discriminate].
    assert (Hstep : arity_ok rj (length tokens) = true /\
                    run_events rs evs (take_action rj tokens ns) = Scanned ns').
    { destruct (reg_action rj); try discriminate;
        (destruct (arity_ok rj (length tokens)); [split; [reflexivity|exact Hrun]
                                                 |discriminate]). }
    destruct Hstep as [Harity Hrest].
    destruct (decide (i ∈ evs.*1)) as [Hlater|Hlast].
    + destruct (IH _ _ Hlater Hrest) as (tokens' & Hin' & Har' & Hval).
      exists tokens'. split; [apply elem_of_cons; right; exact Hin'|].
      split; assumption.
    + cbn [fmap list_fmap fst] in Hin. apply elem_of_cons in Hin as [Heq|Hin];
        [|contradiction].
      subst j. rewrite Hi in Hj. injection Hj as <-.
      assert (Hothers : forall j' tokens' r', (j', tokens') ∈ evs -> rs !! j' = Some r' ->
                                              dest_of r' ≠ Some n).
      { intros j' tokens' r' Hin' Hj'. apply (Huniq j' r'); [|exact Hj'].
        intros ->. apply Hlast. apply list_elem_of_fmap. exists (i, tokens').
        split; [reflexivity|exact Hin']. }
      exists tokens. split; [apply elem_of_cons; left; reflexivity|].
      split; [exact Harity|].
      rewrite (run_events_other rs evs n _ _ Hothers Hrest).
      unfold take_action. rewrite Hact, Hdest. apply lookup_insert_eq.
Qed.



End ConstructionFacts.

(** ** Help output *)

Lemma max_list_bound (xs : list nat) (b : nat) :
  (forall x, x ∈ xs -> (x <= b)%nat) -> (max_list xs <= b)%nat.
Proof.
  induction xs as [|x xs IH]; intros Hb; cbn; [lia|].
  assert (x <= b)%nat by (apply Hb; constructor).
  assert (max_list xs <= b)%nat by (apply IH; intros y Hy; apply Hb; constructor; exact Hy).
  lia.
Qed.

Lemma widest_elem (h : heap) (ls : list loc) (l : loc) :
  l ∈ ls -> (syntax_width (deref h l) <= widest h ls)%nat.
Proof.
  intros Hl. apply max_list_elem_of_le.
  apply (list_elem_of_fmap_2 (fun l => syntax_width (deref h l))). exact Hl.
Qed.

Lemma listed_elem (h : heap) (ls : list loc) (l : loc) :
  l ∈ listed h ls <-> l ∈ ls /\ is_positional (deref h l) = false.
Proof.
  unfold listed. rewrite !list_elem_of_In, filter_In, negb_true_iff. reflexivity.
Qed.

(** When no positional descriptor is wider than the listed ones, the
    widest syntax of the whole list is that of the listed descriptors. *)
Lemma widest_listed (h : heap) (ls : list loc) :
  (forall l, l ∈ ls -> is_positional (deref h l) = true ->
             (syntax_width (deref h l) <= widest h (listed h ls))%nat) ->
  widest h ls = widest h (listed h ls).
Proof.
  intros Hpos. apply Nat.le_antisymm.
  - apply max_list_bound. intros x Hx.
    apply list_elem_of_fmap in Hx as (l & -> & Hl).
    destruct (is_positional (deref h l)) eqn:Hp.
    + apply Hpos; assumption.
    + apply widest_elem, listed_elem. split; assumption.
  - apply max_list_bound. intros x Hx.
    apply list_elem_of_fmap in Hx as (l & -> & Hl).
    apply listed_elem in Hl as [Hl _]. apply widest_elem, Hl.
Qed.

(** The second loop of [print_help] computes the widest syntax of the
    whole list, positional descriptors included. *)
Lemma compute_maxlen_run (h : heap) (ls : list loc) :
  forall m0 m : Z,
    0 <= m0 ->
    compute_maxlen h ls m0 = Done m ->
    m = Z.max m0 (Z.of_nat (widest h ls)) /\
    Forall (fun l => exists s, deref h l !! "syntax" = Some (VStr s)) ls.
Proof.
  induction ls as [|l ls IH]; intros m0 m Hm0 Hrun.
  - injection Hrun as <-. split; [cbn; lia|constructor].
  - cbn [compute_maxlen] in Hrun. unfold getitem in Hrun. run_monad.
    destruct (deref h l !! "syntax") as [v|] eqn:Hv; [|discriminate].
    destruct v as [| | |s]; try discriminate. cbn [py_len] in Hrun.
    apply IH in Hrun as [-> Hall];
      [|destruct (bool_decide (len s > m0)); unfold len; lia]. split.
    + unfold widest. cbn [fmap list_fmap max_list max_list_with].
      fold (widest h ls). unfold syntax_width. rewrite Hv. unfold len, id.
      case_bool_decide; lia.
    + constructor; [exists s; exact Hv|exact Hall].
Qed.

(** The third loop of [print_help] prints one line per listed
    descriptor: two spaces, the syntax left-justified in [m + 2] columns,
    the help text. *)
Lemma print_options_run (h : heap) (m : nat) (ls : list loc) :
  forall lines : list string,
    print_options h (line_template (Z.of_nat m)) ls = (lines, Done tt) ->
    Forall2 (fun l line => exists syn help : pyval,
               deref h l !! "syntax" = Some syn /\ deref h l !! "help" = Some help /\
               line = "  " +:+ pad true (m + 2) (py_str syn) +:+ py_str help)
            (listed h ls) lines.
Proof.
  induction ls as [|l ls IH]; intros lines Hrun.
  - injection Hrun as <-. constructor.
  - cbn [print_options] in Hrun. unfold option_line, getitem in Hrun.
    unfold listed. cbn [List.filter]. fold (listed h ls). unfold is_positional.
    run_monad.
    destruct (deref h l !! "type") as [t|]; [|discriminate].
    destruct (py_eq t (VStr "positional")); cbn [negb] in *.
    + apply IH, Hrun.
    + destruct (deref h l !! "syntax") as [syn|] eqn:Hsyn; [|discriminate].
      destruct (deref h l !! "help") as [help|] eqn:Hhelp; [|discriminate].
      rewrite format_line_template in Hrun.
      destruct (print_options h (line_template (Z.of_nat m)) ls) as [rest r] eqn:Hrest.
      injection Hrun as <- ->.
      constructor; [|apply IH; reflexivity].
      exists syn, help. split; [exact Hsyn|]. split; [exact Hhelp|reflexivity].
Qed.

Lemma Forall2_impl_elem {A B} (P Q : A -> B -> Prop) (xs : list A) (ys : list B) :
  Forall2 P xs ys -> (forall x y, x ∈ xs -> P x y -> Q x y) -> Forall2 Q xs ys.
Proof.
  induction 1 as [|x y xs ys Hxy _ IH]; intros Himp; constructor.
  - apply Himp; [constructor|exact Hxy].
  - apply IH. intros x' y' Hin. apply Himp. constructor. exact Hin.
Qed.

(** A successful [print_help]: the usage message, then the option lines,
    aligned on the widest syntax of the whole list. *)
Lemma print_help_lines (argv0 : string) (p : parser) (h : heap) (out : list string)
    (code : Z) :
  print_help argv0 p h = (out, Exits code) ->
  exists (usage : string) (lines : list string),
    out = usage :: lines /\ code = exc_usage p /\
    Forall2 (fun l line => exists (syn : string) (help : pyval),
               deref h l !! "syntax" = Some (VStr syn) /\
               deref h l !! "help" = Some help /\
               line = ("  " +:+ syn +:+ spaces (widest h (options p) + 2 - String.length syn))
                        +:+ py_str help /\
               help_column line (py_str help) = (widest h (options p) + 4)%nat)
            (listed h (options p)) lines.
Proof.
  unfold print_help. intros Hrun.
  destruct (render_positional h (options p) "" ≫= _) as [usage|e]; [|discriminate].
  destruct (compute_maxlen h (options p) 0) as [maxlen|e] eqn:Hmax; [|discriminate].
  apply compute_maxlen_run in Hmax as [Hmax Hstr]; [|lia].
  replace maxlen with (Z.of_nat (widest h (options p))) in Hrun by lia.
  destruct (print_options h _ (options p)) as [lines r] eqn:Hlines.
  destruct r as [[]|e]; [|discriminate].
  injection Hrun as <- <-.
  exists usage, lines. split; [reflexivity|]. split; [reflexivity|].
  apply print_options_run in Hlines.
  eapply Forall2_impl_elem; [exact Hlines|].
  intros l line Hl (syn & help & Hsyn & Hhelp & ->).
  apply listed_elem in Hl as [Hl _].
  rewrite Forall_forall in Hstr. destruct (Hstr l Hl) as (txt & Htxt).
  assert (syn = VStr txt) as -> by congruence.
  pose proof (widest_elem h (options p) l Hl) as Hle.
  unfold syntax_width in Hle. rewrite Htxt in Hle.
  exists txt, help. split; [exact Htxt|]. split; [exact Hhelp|].
  unfold pad, help_column. cbn [py_str].
  rewrite !string_app_assoc. split; [reflexivity|].
  rewrite !string_length_app, spaces_length. cbn [String.length]. lia.
Qed.

(** C1 (amended): each line of the options block is two spaces, the
    syntax left-justified in [maxlen + 2] columns, then the help text, so
    the help text begins [maxlen + 4] characters from the start of the
    line; [maxlen] is the widest syntax of the non-positional
    descriptors provided no positional descriptor has a wider one. *)
Theorem help_column_start (argv0 : string) (p : parser) (h : heap) (out : list string)
    (code : Z) :
  print_help argv0 p h = (out, Exits code) ->
  (forall l, l ∈ options p -> is_positional (deref h l) = true ->
             (syntax_width (deref h l) <= widest h (listed h (options p)))%nat) ->
  exists (usage : string) (lines : list string),
    out = usage :: lines /\
    Forall2 (fun l line => exists (syn : string) (help : pyval),
               deref h l !! "syntax" = Some (VStr syn) /\
               deref h l !! "help" = Some help /\
               line = ("  " +:+ syn
                       +:+ spaces (widest h (listed h (options p)) + 2 - String.length syn))
                        +:+ py_str help /\
               help_column line (py_str help)
                 = (widest h (listed h (options p)) + 4)%nat)
            (listed h (options p)) lines.
Proof.
  intros Hrun Hpos.
  destruct (print_help_lines _ _ _ _ _ Hrun) as (usage & lines & -> & _ & Hlines).
  exists usage, lines. split; [reflexivity|].
  rewrite <- (widest_listed h (options p) Hpos). exact Hlines.
Qed.

(** Descriptors that are not positional add nothing to the usage line. *)
Lemma render_positional_filter (h : heap) (opts : list loc) :
  Forall (fun l => is_Some (deref h l !! "type")) opts ->
  forall positional : string,
    render_positional h opts positional
    = render_positional h (List.filter (fun l => is_positional (deref h l)) opts)
                        positional.
Proof.
  induction 1 as [|l opts [t Ht] _ IH]; intros positional; [reflexivity|].
  cbn [List.filter]. unfold is_positional at 1. rewrite Ht.
  destruct (py_eq t (VStr "positional")) eqn:Hpos; cbn [render_positional].
  - unfold mbind, outcome_bind.
    destruct (render_option (deref h l) positional); [apply IH|reflexivity].
  - unfold render_option, getitem. rewrite Ht. run_monad_goal. rewrite Hpos. apply IH.
Qed.

Lemma display_name_plain (d : pydict) (n : string) :
  d !! "display" = None -> d !! "name" = Some (VStr n) -> display_name d = Done (upper n).
Proof. intros Hd Hn. unfold display_name, getitem. rewrite Hd, Hn. reflexivity. Qed.

(** A positional with nargs ["+"]: the name, three dots, a space. *)
Lemma render_option_plus (d : pydict) (t : pyval) (nm positional : string) :
  d !! "type" = Some t -> py_eq t (VStr "positional") = true ->
  d !! "nargs" = Some (VStr "+") -> display_name d = Done nm ->
  render_option d positional = Done ((positional +:+ nm +:+ "...") +:+ " ").
Proof.
  intros Ht Hp Ha Hn. unfold render_option, getitem. rewrite Ht, Ha. run_monad_goal.
  rewrite Hp, Hn. cbn [py_eq bool_decide]. rewrite bool_decide_eq_false_2 by discriminate.
  rewrite bool_decide_eq_true_2 by reflexivity.
  pose proof (format_one_placeholder "" "..." (VStr nm) eq_refl eq_refl) as Hf.
  change ("" +:+ "%s" +:+ "...") with "%s..." in Hf. rewrite Hf. reflexivity.
Qed.

(** A positional with the exact count 1: the name and a space from the
    inner loop, then the space that follows every positional. *)
Lemma render_option_one (d : pydict) (t : pyval) (nm positional : string) :
  d !! "type" = Some t -> py_eq t (VStr "positional") = true ->
  d !! "nargs" = Some (VInt 1) -> display_name d = Done nm ->
  render_option d positional = Done ((positional +:+ nm +:+ " ") +:+ " ").
Proof.
  intros Ht Hp Ha Hn. unfold render_option, getitem. rewrite Ht, Ha. run_monad_goal.
  rewrite Hp. cbn [py_eq py_int_value py_range].
  change (Z.to_nat 1) with 1%nat. cbn [repeat_name]. run_monad_goal. rewrite Hn.
  pose proof (format_one_placeholder "" " " (VStr nm) eq_refl eq_refl) as Hf.
  change ("" +:+ "%s" +:+ " ") with "%s " in Hf. rewrite Hf. reflexivity.
Qed.

(** C2: for every descriptor list whose positional descriptors are
    [infile] with nargs ["+"] and [outfile] with nargs 1, without display
    overrides, the positional segment of the usage line is
    ["INFILE... OUTFILE  "], with two spaces at its end, and therefore
    not ["INFILE... OUTFILE "]. *)
Theorem usage_positional_segment (h : heap) (opts : list loc) (l1 l2 : loc) :
  Forall (fun l => is_Some (deref h l !! "type")) opts ->
  List.filter (fun l => is_positional (deref h l)) opts = [l1; l2] ->
  deref h l1 !! "name" = Some (VStr "infile") ->
  deref h l1 !! "nargs" = Some (VStr "+") ->
  deref h l1 !! "display" = None ->
  deref h l2 !! "name" = Some (VStr "outfile") ->
  deref h l2 !! "nargs" = Some (VInt 1) ->
  deref h l2 !! "display" = None ->
  render_positional h opts "" = Done "INFILE... OUTFILE  " /\
  render_positional h opts "" ≠ Done "INFILE... OUTFILE ".
Proof.
  intros Htypes Hfilter Hn1 Ha1 Hd1 Hn2 Ha2 Hd2.
  assert (Hp : is_positional (deref h l1) = true /\ is_positional (deref h l2) = true).
  { assert (H1 : In l1 (List.filter (fun l => is_positional (deref h l)) opts))
      by (rewrite Hfilter; left; reflexivity).
    assert (H2 : In l2 (List.filter (fun l => is_positional (deref h l)) opts))
      by (rewrite Hfilter; right; left; reflexivity).
    apply filter_In in H1 as [_ H1]. apply filter_In in H2 as [_ H2]. split; assumption. }
  destruct Hp as [Hp1 Hp2]. unfold is_positional in Hp1, Hp2.
  destruct (deref h l1 !! "type") as [t1|] eqn:Ht1; [|discriminate].
  destruct (deref h l2 !! "type") as [t2|] eqn:Ht2; [|discriminate].
  assert (E : render_positional h opts "" = Done "INFILE... OUTFILE  ").
  { rewrite (render_positional_filter h opts Htypes), Hfilter.
    cbn [render_positional].
    rewrite (render_option_plus _ t1 _ "" Ht1 Hp1 Ha1 (display_name_plain _ _ Hd1 Hn1)).
    run_monad_goal.
    rewrite (render_option_one _ t2 _ _ Ht2 Hp2 Ha2 (display_name_plain _ _ Hd2 Hn2)).
    reflexivity. }
  split; [exact E|]. rewrite E. discriminate.
Qed.


(** ** The claims on concrete descriptor lists *)

Lemma help_column_start_witness :
  let s := snd Cases.columns in
  widest (heap_of s) (listed (heap_of s) (options (self s))) = 20%nat /\
  exists (usage : string) (lines : list string),
    fst (print_help "prog" (self s) (heap_of s)) = usage :: lines /\
    Forall2 (fun l line => exists (syn : string) (help : pyval),
               deref (heap_of s) l !! "syntax" = Some (VStr syn) /\
               deref (heap_of s) l !! "help" = Some help /\
               line = ("  " +:+ syn
                       +:+ spaces (widest (heap_of s) (listed (heap_of s) (options (self s)))
                                   + 2 - String.length syn))
                        +:+ py_str help /\
               help_column line (py_str help)
                 = (widest (heap_of s) (listed (heap_of s) (options (self s))) + 4)%nat)
            (listed (heap_of s) (options (self s))) lines.
Proof.
  cbv zeta. split; [vm_compute; reflexivity|].
  apply (help_column_start "prog" (self (snd Cases.columns))
           (heap_of (snd Cases.columns)) _ 0).
  - vm_compute. reflexivity.
  - intros l Hl Hp.
    change (options (self (snd Cases.columns))) with [2; 1]%positive in Hl.
    repeat (apply elem_of_cons in Hl as [->|Hl]);
      try (vm_compute in Hp; discriminate Hp).
    inversion Hl.
Defined.

Lemma usage_positional_segment_witness :
  let s := snd Example.constructed in
  render_positional (heap_of s) (options (self s)) "" = Done "INFILE... OUTFILE  " /\
  render_positional (heap_of s) (options (self s)) "" ≠ Done "INFILE... OUTFILE ".
Proof.
  cbv zeta.
  apply (usage_positional_segment (heap_of (snd Example.constructed))
           (options (self (snd Example.constructed))) 5%positive 6%positive).
  - change (options (self (snd Example.constructed))) with [2; 3; 4; 5; 6]%positive.
    repeat (constructor; [eexists; vm_compute; reflexivity|]). constructor.
  - vm_compute. reflexivity.
  - vm_compute. reflexivity.
  - vm_compute. reflexivity.
  - vm_compute. reflexivity.
  - vm_compute. reflexivity.
  - vm_compute. reflexivity.
  - vm_compute. reflexivity.
Defined.

(** With non-positional syntax widths 20 and 10 the help texts begin at
    offset 24, not 22; with a positional of width 30 in the list they
    begin at offset 34. *)
Lemma help_column_counterexample :
  (let s := snd Cases.columns in
   (fun l => syntax_width (deref (heap_of s) l)) <$> listed (heap_of s) (options (self s))
     = [20; 10]%nat /\
   ~ Forall2 (fun l line => exists help : pyval,
                deref (heap_of s) l !! "help" = Some help /\
                help_column line (py_str help)
                  = (widest (heap_of s) (listed (heap_of s) (options (self s))) + 2)%nat)
             (listed (heap_of s) (options (self s)))
             (tail (fst (print_help "prog" (self s) (heap_of s))))) /\
  (let s := snd Cases.wide in
   (fun l => syntax_width (deref (heap_of s) l)) <$> listed (heap_of s) (options (self s))
     = [20; 10]%nat /\
   tail (fst (print_help "prog" (self s) (heap_of s)))
     = [ "  -v, --verbose-output            Be talkative";
         "  -h, --help                      Display this message" ] /\
   help_column "  -v, --verbose-output            Be talkative" "Be talkative" = 34%nat).
Proof.
  cbv zeta. split; [split; [reflexivity|]|split; [reflexivity|split; reflexivity]].
  intros Hall.
  assert (E : listed (heap_of (snd Cases.columns)) (options (self (snd Cases.columns)))
              = [2; 1]%positive) by reflexivity.
  rewrite E in Hall.
  assert (L : tail (fst (print_help "prog" (self (snd Cases.columns))
                           (heap_of (snd Cases.columns))))
              = [ "  -v, --verbose-output  Be talkative";
                  "  -h, --help            Display this message" ])
    by (vm_compute; reflexivity).
  rewrite L in Hall.
  apply Forall2_cons_1 in Hall as [(help & Hhelp & Hcol) _].
  vm_compute in Hhelp. injection Hhelp as <-.
  vm_compute in Hcol. discriminate Hcol.
Qed.

Lemma help_descriptor_count_witness :
  let s := snd Example.constructed in
  count_help (heap_of s) (options (self s))
  = Nat.max 1 (count_help Example.heap0 Example.cmdoptions).
Proof.
  cbv zeta.
  apply (help_descriptor_count strict_check Example.cmdoptions Example.msg_error 2
           Example.msg_usage 0 Example.heap0 (snd Example.constructed)).
  - vm_compute. reflexivity.
  - vm_compute. reflexivity.
Defined.

(** Two help descriptors with different spellings are both kept. *)
Lemma help_descriptor_count_counterexample :
  ~ (fst Cases.two_helps = Done tt ->
     count_help (heap_of (snd Cases.two_helps)) (options (self (snd Cases.two_helps)))
     = 1%nat).
Proof.
  intros H. specialize (H eq_refl). vm_compute in H. discriminate H.
Qed.



Lemma error_uniform_message_witness :
  (let s := snd (init strict_check [3; 2]%positive Example.msg_error 2 MSG_USAGE_HELP 0
                      Cases.two_helps_heap) in
   error (self s) (heap_of s) "unrecognized arguments: -x"
   = ("Invalid or insufficient command line. Use --usage for detailed usage information."
      +:+ nl, Exits 2)) /\
  (let s := snd Cases.first in
   error (self s) (heap_of s) "unrecognized arguments: -x"
   = ("Invalid or insufficient command line. Use --help for detailed usage information."
      +:+ nl, Exits 2)).
Proof.
  cbv zeta. split.
  - destruct (error_uniform_message strict_check [3; 2]%positive
                "Invalid or insufficient command line. Use "
                " for detailed usage information." 2 MSG_USAGE_HELP 0
                Cases.two_helps_heap
                (snd (init strict_check [3; 2]%positive Example.msg_error 2
                           MSG_USAGE_HELP 0 Cases.two_helps_heap))
                "unrecognized arguments: -x")
      as (l & long & _ & _ & Hl & Hlong & _ & Herr);
      [vm_compute; reflexivity | vm_compute; reflexivity | vm_compute; reflexivity
      | vm_compute; reflexivity |].
    vm_compute in Hl. injection Hl as <-.
    vm_compute in Hlong. injection Hlong as <-.
    exact Herr.
  - destruct (error_uniform_message strict_check [2%positive]
                "Invalid or insufficient command line. Use "
                " for detailed usage information." 2 MSG_USAGE_HELP 0
                Cases.first_heap (snd Cases.first) "unrecognized arguments: -x")
      as (l & long & _ & _ & Hl & Hlong & _ & Herr);
      [vm_compute; reflexivity | vm_compute; reflexivity | vm_compute; reflexivity
      | vm_compute; reflexivity |].
    vm_compute in Hl. injection Hl as <-.
    vm_compute in Hlong. injection Hlong as <-.
    exact Herr.
Defined.



Lemma unrecognized_type_fatal_witness :
  exists (e : exn) (s' : state) (registered : list loc),
    init strict_check [2; 3]%positive Example.msg_error 2 MSG_USAGE_HELP 0
         Cases.unknown_heap = (Raised e, s') /\
    registered `prefix_of` options (self s') /\
    Forall2 (fun l r => registration_of (deref Cases.unknown_heap l) = Done r)
            registered (actions (self s')) /\
    Forall (fun l => recognized (deref Cases.unknown_heap l) = true) registered.
Proof.
  apply (unrecognized_type_fatal strict_check [2; 3]%positive Example.msg_error 2
           MSG_USAGE_HELP 0 Cases.unknown_heap).
  exists 3%positive. split.
  - apply elem_of_cons. right. apply elem_of_cons. left. reflexivity.
  - vm_compute. reflexivity.
Defined.

Lemma default_error_message_raises_witness :
  no_percent MSG_SYNTAX_ERROR = true /\
  error (self (snd Cases.plain)) (heap_of (snd Cases.plain)) "unrecognized arguments: -x"
  = ("", Raises TypeError).
Proof.
  apply (default_error_message_raises strict_check Example.cmdoptions 2 MSG_USAGE_HELP 0
           Example.heap0 (snd Cases.plain)).
  - vm_compute. reflexivity.
  - vm_compute. reflexivity.
Defined.

Lemma default_help_shared_witness :
  options (self (snd Cases.first)) = [2%positive] ++ [OPT_DEFAULT_HELP] /\
  deref (heap_of (snd Cases.first)) OPT_DEFAULT_HELP
    = <["syntax" := VStr "-h, --help"]> OPT_DEFAULT_HELP_fields /\
  deref (heap_of (snd Cases.first)) OPT_DEFAULT_HELP
    ≠ deref Cases.first_heap OPT_DEFAULT_HELP /\
  options (self (snd Cases.second)) = [3%positive] ++ [OPT_DEFAULT_HELP] /\
  deref (heap_of (snd Cases.second)) OPT_DEFAULT_HELP
    = deref (heap_of (snd Cases.first)) OPT_DEFAULT_HELP.
Proof.
  apply (default_help_shared strict_check [2%positive] [3%positive]
           Example.msg_error Example.msg_error 2 2 MSG_USAGE_HELP MSG_USAGE_HELP 0 0
           Cases.first_heap (snd Cases.first) (snd Cases.second)).
  - vm_compute. reflexivity.
  - constructor; [|constructor]. eexists. split; vm_compute; reflexivity.
  - vm_compute. reflexivity.
  - constructor; [|constructor]. eexists. split; vm_compute; reflexivity.
  - vm_compute. reflexivity.
Defined.

(** * Further properties of the module *)

(** ** The constructor *)

Lemma find_help_first (h : heap) (pre post : list loc) (l : loc) :
  no_help_in h pre -> is_help (deref h l) = true ->
  find_help h (pre ++ l :: post) = Done (Some l).
Proof.
  intros Hpre Hl. induction Hpre as [|x pre (t & Ht & Hne) _ IH]; cbn [app find_help].
  - unfold is_help in Hl. unfold getitem.
    destruct (deref h l !! "type") as [t|]; [|discriminate].
    run_monad_goal. rewrite Hl. reflexivity.
  - unfold getitem. rewrite Ht. run_monad_goal. rewrite Hne. exact IH.
Qed.

Lemma find_help_no_type (h : heap) (pre post : list loc) (l : loc) :
  no_help_in h pre -> deref h l !! "type" = None ->
  find_help h (pre ++ l :: post) = Raised (KeyError "type").
Proof.
  intros Hpre Hl. induction Hpre as [|x pre (t & Ht & Hne) _ IH]; cbn [app find_help].
  - unfold getitem. rewrite Hl. reflexivity.
  - unfold getitem. rewrite Ht. run_monad_goal. rewrite Hne. exact IH.
Qed.

(** The fixed templates of the constructor never fail. *)
Lemma format_syntax_normal (a b c : pyval) :
  format "%s, %s=%s" [a; b; c]
  = Done (py_str a +:+ ", " +:+ py_str b +:+ "=" +:+ py_str c).
Proof.
  change (format "%s, %s=%s" [a; b; c])
    with (Done (py_str a +:+ ", " +:+ py_str b +:+ "=" +:+ py_str c +:+ "")).
  rewrite string_app_nil_r. reflexivity.
Qed.

Lemma format_syntax_flags (a b : pyval) :
  format "%s, %s" [a; b] = Done (py_str a +:+ ", " +:+ py_str b).
Proof.
  change (format "%s, %s" [a; b]) with (Done (py_str a +:+ ", " +:+ py_str b +:+ "")).
  rewrite string_app_nil_r. reflexivity.
Qed.

Lemma format_syntax_name (a : pyval) : format "%s" [a] = Done (py_str a).
Proof.
  change (format "%s" [a]) with (outcome_map (String.append (py_str a)) (Done "")).
  cbn [outcome_map]. rewrite string_app_nil_r. reflexivity.
Qed.

Ltac split_keys H :=
  unfold has_keys in H; cbn [forallb] in H;
  repeat (let H1 := fresh "Hk" in apply andb_prop in H as [H1 H];
          apply bool_decide_eq_true_1 in H1; destruct H1 as [? H1]);
  clear H.

Lemma well_formed_same (d d' : pydict) :
  same_fields d d' -> well_formed d = well_formed d'.
Proof.
  intros H. unfold well_formed, has_keys. cbn [forallb]. same_fields_rewrite H.
  reflexivity.
Qed.

(** For a well-formed descriptor the second loop computes a syntax and a
    registration. *)
Lemma well_formed_done (d : pydict) :
  well_formed d = true ->
  exists syn r, syntax_of d = Done syn /\ registration_of d = Done r.
Proof.
  unfold well_formed, syntax_of, registration_of, getitem. run_monad_goal.
  destruct (d !! "type") as [t|]; [|discriminate].
  destruct (py_eq t (VStr "normal")).
  { intros H. split_keys H. rewrite Hk, Hk0, Hk1, Hk2. rewrite format_syntax_normal.
    eauto. }
  destruct (py_eq t (VStr "switch")).
  { intros H. split_keys H. rewrite Hk, Hk0, Hk1. rewrite format_syntax_flags. eauto. }
  destruct (py_eq t (VStr "positional")).
  { intros H. split_keys H. rewrite Hk, Hk0. rewrite format_syntax_name. eauto. }
  destruct (py_eq t (VStr "help")); [|discriminate].
  intros H. split_keys H. rewrite Hk, Hk0. rewrite format_syntax_flags. eauto.
Qed.

Lemma done_well_formed (d : pydict) (syn : string) (r : registration) :
  syntax_of d = Done syn -> registration_of d = Done r -> well_formed d = true.
Proof.
  unfold well_formed, syntax_of, registration_of, getitem, has_keys.
  cbn [forallb]. run_monad_goal.
  destruct (d !! "type") as [t|]; [|discriminate].
  destruct (py_eq t (VStr "normal")).
  { destruct (d !! "short"); [|discriminate]. destruct (d !! "long"); [|discriminate].
    destruct (d !! "arg"); [|discriminate]. destruct (d !! "name"); [|discriminate].
    intros _ _. rewrite !bool_decide_eq_true_2 by eauto. reflexivity. }
  destruct (py_eq t (VStr "switch")).
  { destruct (d !! "short"); [|discriminate]. destruct (d !! "long"); [|discriminate].
    destruct (d !! "name"); [|discriminate].
    intros _ _. rewrite !bool_decide_eq_true_2 by eauto. reflexivity. }
  destruct (py_eq t (VStr "positional")).
  { destruct (d !! "name"); [|discriminate]. destruct (d !! "nargs"); [|discriminate].
    intros _ _. rewrite !bool_decide_eq_true_2 by eauto. reflexivity. }
  destruct (py_eq t (VStr "help")); [|discriminate].
  destruct (d !! "short"); [|discriminate]. destruct (d !! "long"); [|discriminate].
  intros _ _. rewrite !bool_decide_eq_true_2 by eauto. reflexivity.
Qed.

Lemma well_formed_typed (d : pydict) : well_formed d = true -> is_Some (d !! "type").
Proof. unfold well_formed. destruct (d !! "type"); [eauto|discriminate]. Qed.

(** The first loop cannot raise when every descriptor has a type. *)
Lemma find_help_total (h : heap) (opts : list loc) :
  Forall (fun l => is_Some (deref h l !! "type")) opts ->
  exists found, find_help h opts = Done found.
Proof.
  induction 1 as [|l opts [t Ht] _ [found IH]]; [exists None; reflexivity|].
  cbn [find_help]. unfold getitem. rewrite Ht. run_monad_goal.
  destruct (py_eq t (VStr "help")); eauto.
Qed.

Lemma Forall2_functional {A B} (f : A -> outcome B) (xs : list A) (ys zs : list B) :
  Forall2 (fun x y => f x = Done y) xs ys ->
  Forall2 (fun x y => f x = Done y) xs zs -> ys = zs.
Proof.
  intros H. revert zs. induction H as [|x y xs ys Hxy _ IH]; intros zs Hz.
  - inversion Hz. reflexivity.
  - inversion Hz as [|x' z xs' zs' Hxz Hrest]; subst.
    f_equal; [congruence|apply IH, Hrest].
Qed.

Lemma heap_agree_sym (h h' : heap) : heap_agree h h' -> heap_agree h' h.
Proof. intros H l k Hk. symmetry. apply H, Hk. Qed.

Lemma positional_nargs_cases (v : pyval) :
  positional_nargs v = if bool_decide (v = VInt 1 \/ v = VBool true) then VNone else v.
Proof.
  unfold positional_nargs.
  destruct v as [|[|]|z|s]; cbn; repeat case_bool_decide; try reflexivity;
    exfalso; intuition (congruence || lia).
Qed.

(** A template with two placeholders cannot be filled with one value. *)
Lemma format_two_placeholders_one_value (pre mid post : string) (a : pyval) :
  no_percent pre = true -> no_percent mid = true ->
  format (pre +:+ "%s" +:+ mid +:+ "%s" +:+ post) [a] = Raised TypeError.
Proof.
  intros Hpre Hmid. unfold format.
  rewrite (format_go_text pre _ _ Hpre), format_go_percent_s.
  rewrite (format_go_text mid _ _ Hmid). reflexivity.
Qed.

Section FurtherConstructionFacts.

Variable engine_check : list registration -> registration -> option exn.

(** Whatever its outcome, the constructor stores its four message and
    exit-code parameters as given, leaves the caller's list as it is or
    extends it by the module's default help descriptor, changes no entry
    of any dictionary other than a syntax entry, and leaves every
    dictionary outside the list untouched. *)
Theorem init_frame (opts : list loc) (me : string) (ee : Z) (mu : string) (eu : Z)
    (h : heap) :
  let s' := snd (init engine_check opts me ee mu eu h) in
  (options (self s') = opts \/ options (self s') = opts ++ [OPT_DEFAULT_HELP]) /\
  msg_error (self s') = me /\ exc_error (self s') = ee /\
  msg_usage (self s') = mu /\ exc_usage (self s') = eu /\
  heap_agree h (heap_of s') /\
  (forall l, l ∉ opts -> l ≠ OPT_DEFAULT_HELP -> deref (heap_of s') l = deref h l).
Proof.
  cbv zeta.
  destruct (init engine_check opts me ee mu eu h) as [o s'] eqn:Hinit. cbn [snd].
  destruct (find_help h opts) as [found|e] eqn:Hfind.
  - destruct (init_effect engine_check _ _ _ _ _ _ _ _ _ Hfind Hinit)
      as (regs & _ & Hcfg & Hagree & _ & _ & _ & _ & Hout & _).
    cbn [self heap_of] in *.
    destruct Hcfg as (Hopts & Hme & Hee & Hmu & Heu & _).
    unfold parser_before_loop in *.
    destruct (not_opt_help h found);
      cbn [options msg_error exc_error msg_usage exc_usage] in *.
    + split; [right; exact Hopts|]. do 4 (split; [assumption|]).
      split; [exact Hagree|]. intros l Hl Hne. apply Hout.
      rewrite elem_of_app, list_elem_of_singleton. intros [?|?]; contradiction.
    + split; [left; exact Hopts|]. do 4 (split; [assumption|]).
      split; [exact Hagree|]. intros l Hl _. apply Hout, Hl.
  - rewrite init_run, Hfind in Hinit. injection Hinit as <- <-.
    cbn [self heap_of new_parser options msg_error exc_error msg_usage exc_usage].
    split; [left; reflexivity|]. do 4 (split; [reflexivity|]).
    split; [apply heap_agree_refl|]. reflexivity.
Qed.

(** When the caller's list holds a help descriptor, nothing is appended
    and [self.opt_help] is the first help descriptor of the list,
    whatever the outcome of the constructor; the module's default help
    descriptor, if it is not in the list, is not touched. *)
Theorem init_keeps_first_help (pre post : list loc) (l : loc) (me : string) (ee : Z)
    (mu : string) (eu : Z) (h : heap) :
  no_help_in h pre -> is_help (deref h l) = true ->
  let s' := snd (init engine_check (pre ++ l :: post) me ee mu eu h) in
  options (self s') = pre ++ l :: post /\
  opt_help (self s') = Some l /\
  (OPT_DEFAULT_HELP ∉ pre ++ l :: post ->
   deref (heap_of s') OPT_DEFAULT_HELP = deref h OPT_DEFAULT_HELP).
Proof.
  intros Hpre Hl. cbv zeta.
  destruct (init engine_check (pre ++ l :: post) me ee mu eu h) as [o s'] eqn:Hinit.
  cbn [snd].
  pose proof (find_help_first h pre post l Hpre Hl) as Hfind.
  destruct (init_effect engine_check _ _ _ _ _ _ _ _ _ Hfind Hinit)
    as (regs & _ & Hcfg & _ & _ & _ & _ & _ & Hout & _).
  cbn [self heap_of] in *.
  destruct Hcfg as (Hopts & _ & _ & _ & _ & Hhelp).
  unfold parser_before_loop in *. rewrite (is_help_not_empty h l Hl) in *.
  cbn [options opt_help] in *.
  split; [exact Hopts|]. split; [exact Hhelp|]. apply Hout.
Qed.

(** A descriptor without a type entry that comes before any help
    descriptor stops the constructor in its first loop with the key
    error for ["type"]: nothing is appended, nothing is registered and
    no dictionary is changed. *)
Theorem init_missing_type (pre post : list loc) (l : loc) (me : string) (ee : Z)
    (mu : string) (eu : Z) (h : heap) :
  no_help_in h pre -> deref h l !! "type" = None ->
  init engine_check (pre ++ l :: post) me ee mu eu h
  = (Raised (KeyError "type"),
     State (Parser (pre ++ l :: post) me ee mu eu None []) h).
Proof.
  intros Hpre Hl. rewrite init_run, (find_help_no_type h pre post l Hpre Hl).
  reflexivity.
Qed.

(** On success there is exactly one registration per descriptor of the
    final list, in the order of the list, each one the registration that
    the descriptor's fields determine. *)
Theorem init_registers_in_order (opts : list loc) (me : string) (ee : Z) (mu : string)
    (eu : Z) (h : heap) (s' : state) :
  init engine_check opts me ee mu eu h = (Done tt, s') ->
  length (actions (self s')) = length (options (self s')) /\
  forall (i : nat) (l : loc),
    options (self s') !! i = Some l ->
    exists r, actions (self s') !! i = Some r /\ registration_of (deref h l) = Done r.
Proof.
  intros Hinit. split.
  - apply init_done in Hinit as (_ & _ & _ & _ & Hregs & _).
    symmetry. eapply Forall2_length, Hregs.
  - intros i l Hi. eapply init_registration; eassumption.
Qed.

(** After a successful construction each descriptor carries the syntax
    text of its type: short, long and value name for a valued option,
    short and long for a switch and for the help option, the name for a
    positional. *)
Theorem attached_syntax_text (opts : list loc) (me : string) (ee : Z) (mu : string)
    (eu : Z) (h : heap) (s' : state) (l : loc) :
  init engine_check opts me ee mu eu h = (Done tt, s') ->
  l ∈ options (self s') ->
  exists (t : pyval) (syn : string),
    deref h l !! "type" = Some t /\
    deref (heap_of s') l !! "syntax" = Some (VStr syn) /\
    (t = VStr "normal" ->
     exists short long arg,
       deref h l !! "short" = Some short /\ deref h l !! "long" = Some long /\
       deref h l !! "arg" = Some arg /\
       syn = py_str short +:+ ", " +:+ py_str long +:+ "=" +:+ py_str arg) /\
    (t = VStr "switch" \/ t = VStr "help" ->
     exists short long,
       deref h l !! "short" = Some short /\ deref h l !! "long" = Some long /\
       syn = py_str short +:+ ", " +:+ py_str long) /\
    (t = VStr "positional" ->
     exists name, deref h l !! "name" = Some name /\ syn = py_str name).
Proof.
  intros Hinit Hl.
  apply init_done in Hinit as (_ & _ & _ & _ & _ & Hatt & _).
  destruct (Hatt l Hl) as (syn & Hsyn & Hattached).
  unfold syntax_of, getitem in Hsyn. run_monad.
  destruct (deref h l !! "type") as [t|]; [|discriminate].
  exists t, syn. split; [reflexivity|]. split; [exact Hattached|].
  split; [|split].
  - intros ->. change (py_eq (VStr "normal") (VStr "normal")) with true in Hsyn.
    cbv iota in Hsyn.
    destruct (deref h l !! "short") as [short|]; [|discriminate].
    destruct (deref h l !! "long") as [long|]; [|discriminate].
    destruct (deref h l !! "arg") as [arg|]; [|discriminate].
    rewrite format_syntax_normal in Hsyn. injection Hsyn as <-.
    exists short, long, arg. repeat split.
  - intros [-> | ->].
    + change (py_eq (VStr "switch") (VStr "normal")) with false in Hsyn.
      change (py_eq (VStr "switch") (VStr "switch")) with true in Hsyn.
      cbv iota in Hsyn.
      destruct (deref h l !! "short") as [short|]; [|discriminate].
      destruct (deref h l !! "long") as [long|]; [|discriminate].
      rewrite format_syntax_flags in Hsyn. injection Hsyn as <-.
      exists short, long. repeat split.
    + change (py_eq (VStr "help") (VStr "normal")) with false in Hsyn.
      change (py_eq (VStr "help") (VStr "switch")) with false in Hsyn.
      change (py_eq (VStr "help") (VStr "positional")) with false in Hsyn.
      change (py_eq (VStr "help") (VStr "help")) with true in Hsyn.
      cbv iota in Hsyn.
      destruct (deref h l !! "short") as [short|]; [|discriminate].
      destruct (deref h l !! "long") as [long|]; [|discriminate].
      rewrite format_syntax_flags in Hsyn. injection Hsyn as <-.
      exists short, long. repeat split.
  - intros ->.
    change (py_eq (VStr "positional") (VStr "normal")) with false in Hsyn.
    change (py_eq (VStr "positional") (VStr "switch")) with false in Hsyn.
    change (py_eq (VStr "positional") (VStr "positional")) with true in Hsyn.
    cbv iota in Hsyn.
    destruct (deref h l !! "name") as [name|]; [|discriminate].
    rewrite format_syntax_name in Hsyn. injection Hsyn as <-.
    exists name. repeat split.
Qed.

(** With every descriptor well formed and nothing refused by the engine
    the second loop runs to its end. *)
Lemma for_each_well_formed (xs : list loc) :
  (forall rs r, engine_check rs r = None) ->
  forall s : state,
    Forall (fun l => well_formed (deref (heap_of s) l) = true) xs ->
    exists s', for_each (register_option engine_check) xs s = (Done tt, s').
Proof.
  intros Hperm. induction xs as [|x xs IH]; intros s Hwf.
  - eexists. reflexivity.
  - apply Forall_cons in Hwf as [Hx Hxs].
    destruct (well_formed_done _ Hx) as (syn & r & Hsyn & Hreg).
    cbn [for_each]. unfold mbind, M_bind.
    rewrite register_option_run, Hsyn, Hreg. unfold add_argument.
    rewrite Hperm. apply IH. cbn [heap_of set_syntax].
    eapply Forall_impl; [exact Hxs|]. intros l Hl. cbn beta in *.
    rewrite <- (well_formed_same _ _ (heap_agree_set_syntax (heap_of s) x (VStr syn) l)).
    exact Hl.
Qed.

(** With an engine that refuses nothing (and the module's default help
    descriptor well formed), the constructor succeeds exactly when every
    descriptor of the caller's list has a known type and the fields read
    for that type. *)
Theorem init_succeeds_iff (opts : list loc) (me : string) (ee : Z) (mu : string)
    (eu : Z) (h : heap) :
  (forall rs r, engine_check rs r = None) ->
  well_formed (deref h OPT_DEFAULT_HELP) = true ->
  fst (init engine_check opts me ee mu eu h) = Done tt
  <-> Forall (fun l => well_formed (deref h l) = true) opts.
Proof.
  intros Hperm Hdef. split.
  - destruct (init engine_check opts me ee mu eu h) as [o s'] eqn:Hinit. cbn [fst].
    intros ->.
    apply init_done in Hinit as (found & _ & Hcfg & _ & Hregs & Hatt & _).
    destruct Hcfg as (Hopts & _).
    apply Forall_forall. intros l Hl.
    assert (Hin : l ∈ options (self s')).
    { rewrite Hopts. unfold parser_before_loop.
      destruct (not_opt_help h found); cbn [options]; [apply elem_of_app; left|];
        exact Hl. }
    destruct (Forall2_elem_of_l _ _ _ _ Hregs Hin) as (r & _ & Hr).
    destruct (Hatt l Hin) as (syn & Hsyn & _).
    eapply done_well_formed; eassumption.
  - intros Hwf.
    destruct (find_help_total h opts) as [found Hfind].
    { eapply Forall_impl; [exact Hwf|]. intros l. apply well_formed_typed. }
    rewrite init_run, Hfind. cbv zeta.
    destruct (for_each_well_formed
                (options (parser_before_loop opts me ee mu eu h found)) Hperm
                (State (parser_before_loop opts me ee mu eu h found) h)) as [s' Hs'].
    { cbn [heap_of]. unfold parser_before_loop.
      destruct (not_opt_help h found); cbn [options]; [|exact Hwf].
      apply Forall_app. split; [exact Hwf|]. constructor; [exact Hdef|constructor]. }
    rewrite Hs'. reflexivity.
Qed.

(** The second loop run on two states with the same registrations so far
    and dictionaries that differ at most in their syntax entries has the
    same outcome. *)
Lemma for_each_replay (xs : list loc) :
  forall (s t : state) (o : outcome unit) (s' : state),
    heap_agree (heap_of s) (heap_of t) ->
    actions (self s) = actions (self t) ->
    for_each (register_option engine_check) xs s = (o, s') ->
    exists t', for_each (register_option engine_check) xs t = (o, t').
Proof.
  induction xs as [|x xs IH]; intros s t o s' Hagree Hact Hrun.
  - cbn in Hrun. injection Hrun as <- <-. eexists. reflexivity.
  - cbn [for_each] in *. unfold mbind, M_bind in *.
    rewrite register_option_run in *.
    rewrite <- (syntax_of_same _ _ (Hagree x)), <- (registration_of_same _ _ (Hagree x)).
    destruct (syntax_of (deref (heap_of s) x)) as [syn|e].
    2:{ injection Hrun as <- <-. eexists. reflexivity. }
    destruct (registration_of (deref (heap_of s) x)) as [r|e].
    2:{ injection Hrun as <- <-. eexists. reflexivity. }
    unfold add_argument in *. cbn [self heap_of set_syntax] in *.
    rewrite <- Hact.
    destruct (engine_check (actions (self s)) r) as [e|].
    { injection Hrun as <- <-. eexists. reflexivity. }
    eapply IH; [| |exact Hrun]; cbn [self heap_of actions].
    + intros l k Hk. rewrite !deref_insert.
      destruct (decide (x = l)) as [<-|]; [|apply Hagree, Hk].
      rewrite !lookup_insert_ne by congruence. apply Hagree, Hk.
    + rewrite Hact. reflexivity.
Qed.

(** A second construction on the list and dictionaries left by a
    successful one succeeds too, with the same list (nothing is appended
    again), the same registrations, and no dictionary changed. *)
Theorem init_again (opts : list loc) (me me2 : string) (ee ee2 : Z) (mu mu2 : string)
    (eu eu2 : Z) (h : heap) (s1 : state) :
  is_help (deref h OPT_DEFAULT_HELP) = true ->
  init engine_check opts me ee mu eu h = (Done tt, s1) ->
  exists s2 : state,
    init engine_check (options (self s1)) me2 ee2 mu2 eu2 (heap_of s1) = (Done tt, s2) /\
    options (self s2) = options (self s1) /\
    actions (self s2) = actions (self s1) /\
    forall l, deref (heap_of s2) l = deref (heap_of s1) l.
Proof.
  intros Hdef Hinit.
  pose proof Hinit as Hdone.
  apply init_done in Hdone as (found & Hfind & Hcfg & Hagree & Hregs & Hatt & _).
  destruct Hcfg as (Hopts & _).
  set (xs := options (self s1)) in *.
  (* the list holds a help descriptor *)
  assert (Hhelp : exists l, l ∈ xs /\ is_help (deref (heap_of s1) l) = true).
  { rewrite Hopts. unfold parser_before_loop. destruct found as [l|].
    - apply find_help_some in Hfind as [Hin Hl]. rewrite (is_help_not_empty h l Hl).
      exists l. split; [exact Hin|]. rewrite <- (is_help_same _ _ (Hagree l)). exact Hl.
    - cbn. exists OPT_DEFAULT_HELP. split; [apply elem_of_app; right; constructor|].
      rewrite <- (is_help_same _ _ (Hagree _)). exact Hdef. }
  destruct Hhelp as (lh & Hlh & Hlh').
  (* so the first loop finds one *)
  assert (Htyped : Forall (fun l => is_Some (deref (heap_of s1) l !! "type")) xs).
  { apply Forall_forall. intros l Hl.
    destruct (Forall2_elem_of_l _ _ _ _ Hregs Hl) as (r & _ & Hr).
    rewrite <- (Hagree l "type") by done.
    apply registration_of_recognized in Hr. unfold recognized in Hr.
    destruct (deref h l !! "type"); [eauto|discriminate]. }
  destruct (find_help_total _ _ Htyped) as [found2 Hfind2].
  destruct found2 as [l2|].
  2:{ apply find_help_none_count in Hfind2.
      pose proof (count_help_pos _ _ _ Hlh Hlh'). lia. }
  pose proof (find_help_some _ _ _ Hfind2) as [_ Hl2].
  (* and the second loop replays the first *)
  pose proof Hinit as Hrun. rewrite init_run, Hfind in Hrun. cbv zeta in Hrun.
  rewrite <- Hopts in Hrun. fold xs in Hrun.
  destruct (for_each_replay xs
              (State (parser_before_loop opts me ee mu eu h found) h)
              (State (Parser xs me2 ee2 mu2 eu2 (Some l2) []) (heap_of s1))
              (Done tt) s1 Hagree
              ltac:(cbn [self actions]; unfold parser_before_loop;
                    destruct (not_opt_help h found); reflexivity)
              Hrun) as [s2 Hs2].
  assert (Hinit2 : init engine_check xs me2 ee2 mu2 eu2 (heap_of s1) = (Done tt, s2)).
  { rewrite init_run, Hfind2. cbv zeta. unfold parser_before_loop.
    rewrite (is_help_not_empty _ _ Hl2). exact Hs2. }
  exists s2. split; [exact Hinit2|].
  apply init_done in Hinit2 as (found2 & Hfind2' & Hcfg2 & Hagree2 & Hregs2 & Hatt2 & Hout2).
  rewrite Hfind2 in Hfind2'. injection Hfind2' as <-.
  destruct Hcfg2 as (Hopts2 & _). unfold parser_before_loop in Hopts2.
  rewrite (is_help_not_empty _ _ Hl2) in Hopts2. cbn [options] in Hopts2.
  split; [exact Hopts2|]. rewrite Hopts2 in Hregs2, Hatt2, Hout2. split.
  - eapply (Forall2_functional (fun l => registration_of (deref h l))); [|exact Hregs].
    eapply Forall2_impl; [exact Hregs2|]. intros l r Hr. cbn beta in *.
    rewrite <- Hr. apply registration_of_same, Hagree.
  - intros l. apply map_eq. intros k. destruct (decide (k = "syntax")) as [->|Hk].
    + destruct (decide (l ∈ xs)) as [Hl|Hl].
      * destruct (Hatt l Hl) as (syn1 & Hs1 & ->).
        destruct (Hatt2 l Hl) as (syn2 & Hs2' & ->).
        rewrite <- (syntax_of_same _ _ (Hagree l)) in Hs2'. congruence.
      * rewrite (Hout2 l Hl). reflexivity.
    + symmetry. apply Hagree2, Hk.
Qed.

(** For a positional descriptor the nargs keyword of the registration is
    the descriptor's nargs, except that the integer 1 and the boolean
    true (an int equal to 1) are passed on as none; the call passes
    neither dest nor default. *)
Theorem positional_nargs_passed (opts : list loc) (me : string) (ee : Z) (mu : string)
    (eu : Z) (h : heap) (s' : state) (i : nat) (l : loc) (v : pyval) :
  init engine_check opts me ee mu eu h = (Done tt, s') ->
  options (self s') !! i = Some l ->
  deref h l !! "type" = Some (VStr "positional") ->
  deref h l !! "nargs" = Some v ->
  exists r : registration,
    actions (self s') !! i = Some r /\
    reg_action r = ActStore /\ reg_dest r = None /\ reg_default r = None /\
    (v = VInt 1 \/ v = VBool true -> reg_nargs r = Some VNone) /\
    (v ≠ VInt 1 -> v ≠ VBool true -> reg_nargs r = Some v).
Proof.
  intros Hinit Hi Htype Hnargs.
  destruct (init_registration engine_check _ _ _ _ _ _ _ _ _ Hinit Hi) as (r & Hr & Hreg).
  unfold registration_of, getitem in Hreg. rewrite Htype, Hnargs in Hreg.
  run_monad.
  change (py_eq (VStr "positional") (VStr "normal")) with false in Hreg.
  change (py_eq (VStr "positional") (VStr "switch")) with false in Hreg.
  change (py_eq (VStr "positional") (VStr "positional")) with true in Hreg.
  cbv iota in Hreg.
  destruct (deref h l !! "name") as [name|]; [|discriminate].
  injection Hreg as <-. eexists. split; [exact Hr|]. cbn.
  do 3 (split; [reflexivity|]). rewrite positional_nargs_cases. split.
  - intros Hv. rewrite bool_decide_eq_true_2 by exact Hv. reflexivity.
  - intros H1 H2. rewrite bool_decide_eq_false_2; [reflexivity|].
    intros [?|?]; contradiction.
Qed.

(** With several help descriptors in the list, the flag that [error]
    puts into its message is the long flag of the first one. *)
Theorem error_names_first_help (pre post : list loc) (l : loc) (long : pyval)
    (before after : string) (ee : Z) (mu : string) (eu : Z) (h : heap) (s' : state)
    (message : string) :
  no_help_in h pre -> is_help (deref h l) = true ->
  deref h l !! "long" = Some long ->
  no_percent before = true -> no_percent after = true ->
  init engine_check (pre ++ l :: post) (before +:+ "%s" +:+ after) ee mu eu h
    = (Done tt, s') ->
  error (self s') (heap_of s') message
  = ((before +:+ py_str long +:+ after) +:+ nl, Exits ee).
Proof.
  intros Hpre Hl Hlong Hb Ha Hinit.
  pose proof (find_help_first h pre post l Hpre Hl) as Hfind.
  apply init_done in Hinit as (found & Hfind' & Hcfg & Hagree & _).
  rewrite Hfind in Hfind'. injection Hfind' as <-.
  destruct Hcfg as (_ & Hme & Hee & _ & _ & Hhelp).
  unfold parser_before_loop in *. rewrite (is_help_not_empty h l Hl) in *.
  cbn [msg_error exc_error opt_help] in *.
  unfold error, getitem. rewrite Hhelp, Hme, Hee.
  rewrite <- (Hagree l "long") by done. rewrite Hlong. run_monad_goal.
  rewrite (format_one_placeholder before after long Hb Ha). reflexivity.
Qed.

End FurtherConstructionFacts.

(** ** The default help descriptor *)

Section DefaultHelp.

Variable engine_check : list registration -> registration -> option exn.

(** C6: for a list without help descriptor the constructor appends the
    module's default help descriptor, once and at the end, with short
    ["-h"], long ["--help"], name ["help"] and help text
    ["Display this message"]; when construction completes, every
    descriptor of the list, the appended one included, carries the syntax
    computed from its fields; and construction does complete when the
    engine refuses no registration and every descriptor of the list has
    the fields read for its type. *)
Theorem default_help_appended (opts : list loc) (me : string) (ee : Z) (mu : string)
    (eu : Z) (h : heap) (o : outcome unit) (s' : state) :
  no_help_in h opts ->
  same_fields OPT_DEFAULT_HELP_fields (deref h OPT_DEFAULT_HELP) ->
  init engine_check opts me ee mu eu h = (o, s') ->
  options (self s') = opts ++ [OPT_DEFAULT_HELP] /\
  opt_help (self s') = Some OPT_DEFAULT_HELP /\
  deref (heap_of s') OPT_DEFAULT_HELP !! "type" = Some (VStr "help") /\
  deref (heap_of s') OPT_DEFAULT_HELP !! "short" = Some (VStr "-h") /\
  deref (heap_of s') OPT_DEFAULT_HELP !! "long" = Some (VStr "--help") /\
  deref (heap_of s') OPT_DEFAULT_HELP !! "name" = Some (VStr "help") /\
  deref (heap_of s') OPT_DEFAULT_HELP !! "help" = Some (VStr "Display this message") /\
  (o = Done tt ->
   (forall l, l ∈ opts ++ [OPT_DEFAULT_HELP] -> syntax_attached h (heap_of s') l) /\
   deref (heap_of s') OPT_DEFAULT_HELP !! "syntax" = Some (VStr "-h, --help")) /\
  ((forall rs r, engine_check rs r = None) ->
   Forall (fun l => well_formed (deref h l) = true) opts ->
   o = Done tt).
Proof.
  intros Hno Hdef Hinit.
  destruct (init_without_help engine_check _ _ _ _ _ _ _ _ Hno Hdef Hinit)
    as (H1 & H2 & H3 & H4 & H5 & H6 & H7 & H8).
  do 8 (split; [assumption|]).
  intros Hperm Hwf.
  rewrite init_run, (find_help_none _ _ Hno) in Hinit. cbv zeta in Hinit.
  destruct (for_each_well_formed engine_check
              (options (parser_before_loop opts me ee mu eu h None)) Hperm
              (State (parser_before_loop opts me ee mu eu h None) h)) as [s1 Hs1].
  { cbn [heap_of parser_before_loop not_opt_help options].
    apply Forall_app. split; [exact Hwf|]. constructor; [|constructor].
    rewrite <- (well_formed_same _ _ Hdef). reflexivity. }
  rewrite Hs1 in Hinit. injection Hinit as <- _. reflexivity.
Qed.

End DefaultHelp.

Lemma default_help_appended_witness :
  let s := snd Cases.first in
  fst Cases.first = Done tt /\
  options (self s) = [2; 1]%positive /\
  opt_help (self s) = Some OPT_DEFAULT_HELP /\
  deref (heap_of s) 2%positive !! "syntax" = Some (VStr "-p, --pretend") /\
  deref (heap_of s) OPT_DEFAULT_HELP
  = <["syntax" := VStr "-h, --help"]> OPT_DEFAULT_HELP_fields.
Proof.
  cbv zeta.
  destruct (default_help_appended strict_check [2%positive] Example.msg_error 2
              MSG_USAGE_HELP 0 Cases.first_heap (fst Cases.first) (snd Cases.first))
    as (Hopts & Hhelp & _ & _ & _ & _ & _ & Hsyntax & _).
  - constructor; [|constructor]. eexists. split; vm_compute; reflexivity.
  - intros k _. reflexivity.
  - vm_compute. reflexivity.
  - assert (Hdone : fst Cases.first = Done tt) by (vm_compute; reflexivity).
    destruct (Hsyntax Hdone) as [Hall _].
    split; [exact Hdone|]. split; [exact Hopts|]. split; [exact Hhelp|].
    split.
    + destruct (Hall 2%positive) as (syn & Hsyn & Hat).
      { apply elem_of_app. left. constructor. }
      vm_compute in Hsyn. injection Hsyn as <-. exact Hat.
    + vm_compute. reflexivity.
Defined.

(** ** The error handler *)

(** [error] fills the template with one value: a template without any
    placeholder, or with two, makes it raise the type error of the [%]
    operator; nothing is written and the process does not exit with the
    error code. *)
Theorem error_template_mismatch (p : parser) (h : heap) (l : loc) (long : pyval)
    (message : string) :
  opt_help p = Some l -> deref h l !! "long" = Some long ->
  (no_percent (msg_error p) = true \/
   exists pre mid post,
     no_percent pre = true /\ no_percent mid = true /\
     msg_error p = pre +:+ "%s" +:+ mid +:+ "%s" +:+ post) ->
  error p h message = ("", Raises TypeError).
Proof.
  intros Hl Hlong Htemplate. unfold error, getitem. rewrite Hl, Hlong. run_monad_goal.
  destruct Htemplate as [Hnone|(pre & mid & post & Hpre & Hmid & ->)].
  - rewrite (format_no_percent _ long [] Hnone). reflexivity.
  - rewrite (format_two_placeholders_one_value pre mid post long Hpre Hmid). reflexivity.
Qed.

(** ** The help printer *)

Lemma format_name_space (nm : string) : format "%s " [VStr nm] = Done (nm +:+ " ").
Proof.
  pose proof (format_one_placeholder "" " " (VStr nm) eq_refl eq_refl) as Hf.
  exact Hf.
Qed.

(** The inner loop appends the name and a space, [n] times. *)
Lemma repeat_name_run (d : pydict) (nm : string) (n : nat) :
  display_name d = Done nm ->
  forall positional : string,
    repeat_name d n positional = Done (positional +:+ repeat_string n (nm +:+ " ")).
Proof.
  intros Hn. induction n as [|n IH]; intros positional.
  - cbn [repeat_name repeat_string]. rewrite string_app_nil_r. reflexivity.
  - cbn [repeat_name repeat_string]. run_monad_goal. rewrite Hn, format_name_space.
    rewrite IH, string_app_assoc. reflexivity.
Qed.

Lemma int_not_mark (v : pyval) (z : Z) (mark : string) :
  py_int_value v = Some z -> py_eq v (VStr mark) = false.
Proof. destruct v; cbn; intros; try discriminate; reflexivity. Qed.

(** The name shown in the usage line: the display entry when there is
    one, the name otherwise, in upper case. *)
Lemma display_name_shown (d : pydict) (s : string) :
  d !! "display" = Some (VStr s) \/ (d !! "display" = None /\ d !! "name" = Some (VStr s)) ->
  display_name d = Done (upper s).
Proof.
  unfold display_name, getitem. intros [Hd|[Hd Hn]]; rewrite Hd; [|rewrite Hn]; reflexivity.
Qed.


(** A positional whose nargs is neither ["?"], ["+"], ["*"] nor an
    integer (none, or any other string) makes the usage line fail with
    the type error of [range]. *)
Theorem render_option_bad_nargs (d : pydict) (t nargs : pyval) (positional : string) :
  d !! "type" = Some t -> py_eq t (VStr "positional") = true ->
  d !! "nargs" = Some nargs -> py_int_value nargs = None ->
  nargs ≠ VStr "?" -> nargs ≠ VStr "+" -> nargs ≠ VStr "*" ->
  render_option d positional = Raised TypeError.
Proof.
  intros Ht Hp Ha Hz H1 H2 H3.
  unfold render_option, getitem. rewrite Ht, Ha. run_monad_goal. rewrite Hp.
  assert (Hq : forall m, nargs ≠ VStr m -> py_eq nargs (VStr m) = false).
  { intros m Hm. destruct nargs as [| | |s]; try reflexivity. cbn.
    apply bool_decide_eq_false_2. congruence. }
  rewrite (Hq _ H1), (Hq _ H2), (Hq _ H3). unfold py_range. rewrite Hz. reflexivity.
Qed.


(** Descriptors that are not positional add nothing to the usage line:
    it is what the positional descriptors alone would give. *)
Theorem usage_ignores_other_descriptors (h : heap) (opts : list loc) (positional : string) :
  Forall (fun l => is_Some (deref h l !! "type")) opts ->
  render_positional h opts positional
  = render_positional h (List.filter (fun l => is_positional (deref h l)) opts) positional.
Proof. intros Htyped. apply render_positional_filter, Htyped. Qed.

Lemma format_two_placeholders (pre mid post : string) (a b : pyval) :
  no_percent pre = true -> no_percent mid = true -> no_percent post = true ->
  format (pre +:+ "%s" +:+ mid +:+ "%s" +:+ post) [a; b]
  = Done (pre +:+ py_str a +:+ mid +:+ py_str b +:+ post).
Proof.
  intros Hpre Hmid Hpost. unfold format.
  rewrite (format_go_text pre _ _ Hpre), format_go_percent_s.
  rewrite (format_go_text mid _ _ Hmid), format_go_percent_s.
  rewrite <- (string_app_nil_r post) at 1.
  rewrite (format_go_text post "" [] Hpost). cbn [format_go outcome_map].
  rewrite string_app_nil_r. reflexivity.
Qed.

(** With a usage template that has two placeholders, the first thing
    [print_help] prints is the template with the base name of the
    program in the first place and the positional segment in the second,
    whatever happens afterwards. *)
Theorem print_help_usage_line (argv0 : string) (p : parser) (h : heap)
    (pre mid post positional : string) :
  msg_usage p = pre +:+ "%s" +:+ mid +:+ "%s" +:+ post ->
  no_percent pre = true -> no_percent mid = true -> no_percent post = true ->
  render_positional h (options p) "" = Done positional ->
  exists (rest : list string) (t : termination),
    print_help argv0 p h
    = ((pre +:+ basename argv0 +:+ mid +:+ positional +:+ post) :: rest, t).
Proof.
  intros Hmu Hpre Hmid Hpost Hpos. unfold print_help. rewrite Hpos, Hmu.
  run_monad_goal.
  rewrite (format_two_placeholders pre mid post _ _ Hpre Hmid Hpost). cbn [py_str].
  destruct (compute_maxlen h (options p) 0) as [maxlen|e]; [|eauto].
  destruct (print_options h (line_template maxlen) (options p)) as [lines r]. eauto.
Qed.

(** When [print_help] exits, the help texts of all lines begin at the
    same offset: four more than the widest syntax of the whole list, the
    names of the positional descriptors included. *)
Theorem print_help_alignment (argv0 : string) (p : parser) (h : heap) (out : list string)
    (code : Z) :
  print_help argv0 p h = (out, Exits code) ->
  exists (usage : string) (lines : list string),
    out = usage :: lines /\
    Forall2 (fun l line => exists help : pyval,
               deref h l !! "help" = Some help /\
               help_column line (py_str help) = (widest h (options p) + 4)%nat)
            (listed h (options p)) lines.
Proof.
  intros Hrun.
  destruct (print_help_lines _ _ _ _ _ Hrun) as (usage & lines & -> & _ & Hlines).
  exists usage, lines. split; [reflexivity|].
  eapply Forall2_impl; [exact Hlines|].
  intros l line (syn & help & _ & Hhelp & _ & Hcol). eauto.
Qed.

(** [print_help] exits only with the configured help code, after one
    [print] for the usage message and one per non-positional descriptor;
    for that, every non-positional descriptor must have a help entry and
    every descriptor a syntax that is a string. *)
Theorem print_help_exit (argv0 : string) (p : parser) (h : heap) (out : list string)
    (code : Z) :
  print_help argv0 p h = (out, Exits code) ->
  code = exc_usage p /\
  length out = S (length (listed h (options p))) /\
  (forall l, l ∈ listed h (options p) -> is_Some (deref h l !! "help")) /\
  (forall l, l ∈ options p -> exists s, deref h l !! "syntax" = Some (VStr s)).
Proof.
  intros Hrun.
  destruct (print_help_lines _ _ _ _ _ Hrun) as (usage & lines & -> & -> & Hlines).
  split; [reflexivity|]. split.
  { cbn [length]. f_equal. symmetry. eapply Forall2_length, Hlines. }
  split.
  { intros l Hl. destruct (Forall2_elem_of_l _ _ _ _ Hlines Hl)
      as (line & _ & syn & help & _ & Hhelp & _). eauto. }
  unfold print_help in Hrun.
  destruct (render_positional h (options p) "" ≫= _); [|discriminate].
  destruct (compute_maxlen h (options p) 0) as [maxlen|e] eqn:Hmax; [|discriminate].
  apply compute_maxlen_run in Hmax as [_ Hstr]; [|lia].
  intros l Hl. rewrite Forall_forall in Hstr. apply Hstr, Hl.
Qed.

Lemma render_option_ready (d : pydict) (positional : string) :
  help_ready d = true -> exists out, render_option d positional = Done out.
Proof.
  unfold help_ready, render_option, getitem. run_monad_goal.
  destruct (d !! "type") as [t|]; [|discriminate].
  destruct (py_eq t (VStr "positional")); [|eauto].
  destruct (d !! "nargs") as [n|]; [|discriminate].
  destruct (display_name d) as [nm|e] eqn:Hn; [|rewrite andb_false_r; discriminate].
  rewrite andb_true_r. intros Hmark.
  destruct (py_eq n (VStr "?")) eqn:E1.
  { pose proof (format_one_placeholder "[" "]" (VStr nm) eq_refl eq_refl) as Hq.
    change ("[" +:+ "%s" +:+ "]") with "[%s]" in Hq. rewrite Hq. eauto. }
  destruct (py_eq n (VStr "+")) eqn:E2.
  { pose proof (format_one_placeholder "" "..." (VStr nm) eq_refl eq_refl) as Hq.
    change ("" +:+ "%s" +:+ "...") with "%s..." in Hq. rewrite Hq. eauto. }
  destruct (py_eq n (VStr "*")) eqn:E3.
  { pose proof (format_one_placeholder "[" "]..." (VStr nm) eq_refl eq_refl) as Hq.
    change ("[" +:+ "%s" +:+ "]...") with "[%s]..." in Hq. rewrite Hq. eauto. }
  cbn [orb] in Hmark. unfold py_range.
  destruct n as [|b|z|s]; try discriminate; cbn [py_int_value];
    rewrite (repeat_name_run d nm _ Hn); eauto.
Qed.

Lemma render_positional_ready (h : heap) (opts : list loc) :
  Forall (fun l => help_ready (deref h l) = true) opts ->
  forall positional, exists out, render_positional h opts positional = Done out.
Proof.
  induction 1 as [|l opts Hl _ IH]; intros positional; [eexists; reflexivity|].
  cbn [render_positional]. destruct (render_option_ready _ positional Hl) as [out Hout].
  rewrite Hout. run_monad_goal. apply IH.
Qed.

Lemma compute_maxlen_ready (h : heap) (opts : list loc) :
  Forall (fun l => exists s, deref h l !! "syntax" = Some (VStr s)) opts ->
  forall m0, exists m, compute_maxlen h opts m0 = Done m.
Proof.
  induction 1 as [|l opts [s Hs] _ IH]; intros m0; [eexists; reflexivity|].
  cbn [compute_maxlen]. unfold getitem. rewrite Hs. run_monad_goal. cbn [py_len].
  apply IH.
Qed.

Lemma print_options_ready (h : heap) (m : nat) (opts : list loc) :
  Forall (fun l => help_ready (deref h l) = true) opts ->
  Forall (fun l => exists s, deref h l !! "syntax" = Some (VStr s)) opts ->
  exists lines, print_options h (line_template (Z.of_nat m)) opts = (lines, Done tt).
Proof.
  induction 1 as [|l opts Hl _ IH]; intros Hsyn; [eexists; reflexivity|].
  apply Forall_cons in Hsyn as [[s Hs] Hsyn]. destruct (IH Hsyn) as [lines Hlines].
  cbn [print_options]. unfold option_line, getitem.
  unfold help_ready in Hl. run_monad_goal.
  destruct (deref h l !! "type") as [t|]; [|discriminate].
  destruct (py_eq t (VStr "positional")); cbn [negb].
  - rewrite Hlines. eauto.
  - apply bool_decide_eq_true_1 in Hl as [help Hhelp].
    rewrite Hs, Hhelp, format_line_template, Hlines. eauto.
Qed.

Section HelpAfterConstruction.

Variable engine_check : list registration -> registration -> option exn.

(** After a successful construction with a usage template that has two
    placeholders, [print_help] prints the usage message and one line per
    non-positional descriptor and exits with the help code, provided
    every non-positional descriptor has a help entry and every
    positional has an nargs that is ["?"], ["+"], ["*"] or an integer
    and a string as its name (or display name). *)
Theorem print_help_succeeds (opts : list loc) (me : string) (ee : Z)
    (pre mid post : string) (eu : Z) (h : heap) (s' : state) (argv0 : string) :
  no_percent pre = true -> no_percent mid = true -> no_percent post = true ->
  init engine_check opts me ee (pre +:+ "%s" +:+ mid +:+ "%s" +:+ post) eu h
    = (Done tt, s') ->
  Forall (fun l => help_ready (deref (heap_of s') l) = true) (options (self s')) ->
  exists (usage : string) (lines : list string),
    print_help argv0 (self s') (heap_of s') = (usage :: lines, Exits eu) /\
    length lines = length (listed (heap_of s') (options (self s'))).
Proof.
  intros Hpre Hmid Hpost Hinit Hready.
  pose proof Hinit as Hdone.
  apply init_done in Hdone as (found & _ & Hcfg & _ & _ & Hatt & _).
  destruct Hcfg as (_ & _ & _ & Hmu & Heu & _).
  assert (Hmu' : msg_usage (self s') = pre +:+ "%s" +:+ mid +:+ "%s" +:+ post).
  { rewrite Hmu. unfold parser_before_loop. destruct (not_opt_help h found); reflexivity. }
  assert (Heu' : exc_usage (self s') = eu).
  { rewrite Heu. unfold parser_before_loop. destruct (not_opt_help h found); reflexivity. }
  assert (Hsyn : Forall (fun l => exists s, deref (heap_of s') l !! "syntax" = Some (VStr s))
                        (options (self s'))).
  { apply Forall_forall. intros l Hl. destruct (Hatt l Hl) as (syn & _ & Hs). eauto. }
  destruct (render_positional_ready _ _ Hready "") as [positional Hpos].
  destruct (compute_maxlen_ready _ _ Hsyn 0) as [maxlen Hmax].
  pose proof (compute_maxlen_run (heap_of s') (options (self s')) 0 maxlen
                ltac:(lia) Hmax) as [Hwidth _].
  destruct (print_options_ready (heap_of s')
              (widest (heap_of s') (options (self s'))) _ Hready Hsyn) as [lines Hlines].
  assert (Hrun : print_help argv0 (self s') (heap_of s')
                 = ((pre +:+ basename argv0 +:+ mid +:+ positional +:+ post) :: lines,
                    Exits eu)).
  { unfold print_help. rewrite Hpos, Hmu'. run_monad_goal.
    rewrite (format_two_placeholders pre mid post _ _ Hpre Hmid Hpost). cbn [py_str].
    rewrite Hmax. replace maxlen with (Z.of_nat (widest (heap_of s') (options (self s'))))
      by lia.
    rewrite Hlines, Heu'. reflexivity. }
  eexists _, lines. split; [exact Hrun|].
  destruct (print_help_lines _ _ _ _ _ Hrun) as (u & ls & Heq & _ & Hall).
  injection Heq as _ <-. symmetry. eapply Forall2_length, Hall.
Qed.

End HelpAfterConstruction.

(** ** The further properties on concrete descriptor lists *)

Lemma init_frame_witness :
  let s' := snd Example.constructed in
  (options (self s') = Example.cmdoptions \/
   options (self s') = Example.cmdoptions ++ [OPT_DEFAULT_HELP]) /\
  msg_error (self s') = Example.msg_error /\ exc_error (self s') = 2 /\
  msg_usage (self s') = Example.msg_usage /\ exc_usage (self s') = 0 /\
  heap_agree Example.heap0 (heap_of s') /\
  (forall l, l ∉ Example.cmdoptions -> l ≠ OPT_DEFAULT_HELP ->
             deref (heap_of s') l = deref Example.heap0 l).
Proof.
  exact (init_frame strict_check Example.cmdoptions Example.msg_error 2
           Example.msg_usage 0 Example.heap0).
Defined.

Lemma init_keeps_first_help_witness :
  let s' := snd Example.constructed in
  options (self s') = [2; 3]%positive ++ 4%positive :: [5; 6]%positive /\
  opt_help (self s') = Some 4%positive /\
  (OPT_DEFAULT_HELP ∉ [2; 3]%positive ++ 4%positive :: [5; 6]%positive ->
   deref (heap_of s') OPT_DEFAULT_HELP = deref Example.heap0 OPT_DEFAULT_HELP).
Proof.
  apply (init_keeps_first_help strict_check [2; 3]%positive [5; 6]%positive 4%positive
           Example.msg_error 2 Example.msg_usage 0 Example.heap0).
  - repeat (constructor; [eexists; split; vm_compute; reflexivity|]). constructor.
  - vm_compute. reflexivity.
Defined.

Lemma init_missing_type_witness :
  init strict_check ([2%positive] ++ 3%positive :: []) Example.msg_error 2
       MSG_USAGE_HELP 0 Further.untyped_heap
  = (Raised (KeyError "type"),
     State (Parser ([2%positive] ++ 3%positive :: []) Example.msg_error 2
                   MSG_USAGE_HELP 0 None []) Further.untyped_heap).
Proof.
  apply (init_missing_type strict_check [2%positive] [] 3%positive).
  - repeat (constructor; [eexists; split; vm_compute; reflexivity|]). constructor.
  - vm_compute. reflexivity.
Defined.

Lemma init_registers_in_order_witness :
  let s' := snd Example.constructed in
  length (actions (self s')) = length (options (self s')) /\
  forall (i : nat) (l : loc),
    options (self s') !! i = Some l ->
    exists r, actions (self s') !! i = Some r /\
              registration_of (deref Example.heap0 l) = Done r.
Proof.
  apply (init_registers_in_order strict_check Example.cmdoptions Example.msg_error 2
           Example.msg_usage 0 Example.heap0 (snd Example.constructed)).
  vm_compute. reflexivity.
Defined.

Lemma attached_syntax_text_witness :
  let s' := snd Example.constructed in
  exists (t : pyval) (syn : string),
    deref Example.heap0 3%positive !! "type" = Some t /\
    deref (heap_of s') 3%positive !! "syntax" = Some (VStr syn) /\
    (t = VStr "normal" ->
     exists short long arg,
       deref Example.heap0 3%positive !! "short" = Some short /\
       deref Example.heap0 3%positive !! "long" = Some long /\
       deref Example.heap0 3%positive !! "arg" = Some arg /\
       syn = py_str short +:+ ", " +:+ py_str long +:+ "=" +:+ py_str arg) /\
    (t = VStr "switch" \/ t = VStr "help" ->
     exists short long,
       deref Example.heap0 3%positive !! "short" = Some short /\
       deref Example.heap0 3%positive !! "long" = Some long /\
       syn = py_str short +:+ ", " +:+ py_str long) /\
    (t = VStr "positional" ->
     exists name, deref Example.heap0 3%positive !! "name" = Some name /\
                  syn = py_str name).
Proof.
  apply (attached_syntax_text strict_check Example.cmdoptions Example.msg_error 2
           Example.msg_usage 0 Example.heap0 (snd Example.constructed) 3%positive).
  - vm_compute. reflexivity.
  - change (options (self (snd Example.constructed))) with [2; 3; 4; 5; 6]%positive.
    apply elem_of_cons. right. apply elem_of_cons. left. reflexivity.
Defined.

Lemma init_succeeds_iff_witness :
  fst Further.accepted = Done tt
  <-> Forall (fun l => well_formed (deref Example.heap0 l) = true) Example.cmdoptions.
Proof.
  apply (init_succeeds_iff accept_all Example.cmdoptions Example.msg_error 2
           Example.msg_usage 0 Example.heap0).
  - intros rs r. reflexivity.
  - vm_compute. reflexivity.
Defined.

Lemma init_again_witness :
  exists s2 : state,
    init strict_check (options (self (snd Example.constructed))) MSG_SYNTAX_ERROR 1
         MSG_USAGE_HELP 3 (heap_of (snd Example.constructed)) = (Done tt, s2) /\
    options (self s2) = options (self (snd Example.constructed)) /\
    actions (self s2) = actions (self (snd Example.constructed)) /\
    forall l, deref (heap_of s2) l = deref (heap_of (snd Example.constructed)) l.
Proof.
  apply (init_again strict_check Example.cmdoptions Example.msg_error MSG_SYNTAX_ERROR
           2 1 Example.msg_usage MSG_USAGE_HELP 0 3 Example.heap0
           (snd Example.constructed)).
  - vm_compute. reflexivity.
  - vm_compute. reflexivity.
Defined.

Lemma positional_nargs_passed_witness :
  let s' := snd Example.constructed in
  exists r : registration,
    actions (self s') !! 3%nat = Some r /\
    reg_action r = ActStore /\ reg_dest r = None /\ reg_default r = None /\
    (VStr "+" = VInt 1 \/ VStr "+" = VBool true -> reg_nargs r = Some VNone) /\
    (VStr "+" ≠ VInt 1 -> VStr "+" ≠ VBool true -> reg_nargs r = Some (VStr "+")).
Proof.
  apply (positional_nargs_passed strict_check Example.cmdoptions Example.msg_error 2
           Example.msg_usage 0 Example.heap0 (snd Example.constructed) 3 5%positive).
  - vm_compute. reflexivity.
  - vm_compute. reflexivity.
  - vm_compute. reflexivity.
  - vm_compute. reflexivity.
Defined.

Lemma error_names_first_help_witness :
  error (self (snd Cases.two_helps)) (heap_of (snd Cases.two_helps)) "bad flag"
  = (("Invalid or insufficient command line. Use " +:+ py_str (VStr "--help")
      +:+ " for detailed usage information.") +:+ nl, Exits 2).
Proof.
  apply (error_names_first_help strict_check [] [3%positive] 2%positive (VStr "--help")
           "Invalid or insufficient command line. Use "
           " for detailed usage information." 2 MSG_USAGE_HELP 0 Cases.two_helps_heap).
  - constructor.
  - vm_compute. reflexivity.
  - vm_compute. reflexivity.
  - vm_compute. reflexivity.
  - vm_compute. reflexivity.
  - vm_compute. reflexivity.
Defined.

Lemma error_template_mismatch_witness :
  error (self (snd Cases.plain)) (heap_of (snd Cases.plain)) "bad flag"
  = ("", Raises TypeError).
Proof.
  apply (error_template_mismatch (self (snd Cases.plain)) (heap_of (snd Cases.plain))
           4%positive (VStr "--help")).
  - vm_compute. reflexivity.
  - vm_compute. reflexivity.
  - left. vm_compute. reflexivity.
Defined.


Lemma render_option_bad_nargs_witness :
  render_option Further.many "" = Raised TypeError.
Proof.
  apply (render_option_bad_nargs Further.many (VStr "positional") (VStr "many") "").
  - vm_compute. reflexivity.
  - vm_compute. reflexivity.
  - vm_compute. reflexivity.
  - vm_compute. reflexivity.
  - discriminate.
  - discriminate.
  - discriminate.
Defined.


Lemma usage_ignores_other_descriptors_witness :
  render_positional Example.heap0 Example.cmdoptions ""
  = render_positional Example.heap0
      (List.filter (fun l => is_positional (deref Example.heap0 l)) Example.cmdoptions) "".
Proof.
  apply (usage_ignores_other_descriptors Example.heap0 Example.cmdoptions "").
  repeat (constructor; [eexists; vm_compute; reflexivity|]). constructor.
Defined.

Lemma print_help_usage_line_witness :
  let s' := snd Cases.columns in
  exists (rest : list string) (t : termination),
    print_help "/usr/bin/prog" (self s') (heap_of s')
    = (("Usage: " +:+ basename "/usr/bin/prog" +:+ " [OPTION]... " +:+ ""
        +:+ (nl +:+ nl +:+ "Options:")) :: rest, t).
Proof.
  apply (print_help_usage_line "/usr/bin/prog" (self (snd Cases.columns))
           (heap_of (snd Cases.columns)) "Usage: " " [OPTION]... "
           (nl +:+ nl +:+ "Options:") "").
  - vm_compute. reflexivity.
  - vm_compute. reflexivity.
  - vm_compute. reflexivity.
  - vm_compute. reflexivity.
  - vm_compute. reflexivity.
Defined.

Lemma print_help_alignment_witness :
  let s' := snd Cases.wide in
  widest (heap_of s') (options (self s')) = 30%nat /\
  exists (usage : string) (lines : list string),
    fst (print_help "prog" (self s') (heap_of s')) = usage :: lines /\
    Forall2 (fun l line => exists help : pyval,
               deref (heap_of s') l !! "help" = Some help /\
               help_column line (py_str help)
               = (widest (heap_of s') (options (self s')) + 4)%nat)
            (listed (heap_of s') (options (self s'))) lines.
Proof.
  cbv zeta. split; [vm_compute; reflexivity|].
  apply (print_help_alignment "prog" (self (snd Cases.wide)) (heap_of (snd Cases.wide))
           _ 0).
  vm_compute. reflexivity.
Defined.

Lemma print_help_exit_witness :
  let s' := snd Example.constructed in
  0 = exc_usage (self s') /\
  length (fst (print_help "example.py" (self s') (heap_of s')))
  = S (length (listed (heap_of s') (options (self s')))) /\
  (forall l, l ∈ listed (heap_of s') (options (self s')) ->
             is_Some (deref (heap_of s') l !! "help")) /\
  (forall l, l ∈ options (self s') ->
             exists s, deref (heap_of s') l !! "syntax" = Some (VStr s)).
Proof.
  apply (print_help_exit "example.py" (self (snd Example.constructed))
           (heap_of (snd Example.constructed)) _ 0).
  vm_compute. reflexivity.
Defined.

Lemma print_help_succeeds_witness :
  let s' := snd Example.constructed in
  exists (usage : string) (lines : list string),
    print_help "example.py" (self s') (heap_of s') = (usage :: lines, Exits 0) /\
    length lines = length (listed (heap_of s') (options (self s'))).
Proof.
  apply (print_help_succeeds strict_check Example.cmdoptions Example.msg_error 2
           "Usage: " " [OPTION]... "
           (nl +:+ nl +:+ "Example for Python module Argument Parser. The options"
            +:+ nl +:+ "specified below are for demonstration purposes only."
            +:+ nl +:+ nl +:+ "Options:")
           0 Example.heap0 (snd Example.constructed) "example.py").
  - vm_compute. reflexivity.
  - vm_compute. reflexivity.
  - vm_compute. reflexivity.
  - vm_compute. reflexivity.
  - change (options (self (snd Example.constructed))) with [2; 3; 4; 5; 6]%positive.
    repeat (constructor; [vm_compute; reflexivity|]). constructor.
Defined.
